(** * A shallow embedding of the payment gateway simulator (server.js)

    The server keeps one MongoDB collection of transactions, offers an
    endpoint that creates a pending transaction and arms a three second
    timer which resolves it, and offers read endpoints that list and
    count transactions.  This file embeds the handlers as functions on an
    explicit server state and proves the properties of the design
    document against them. *)

From Stdlib Require Import ZArith QArith List String Ascii Bool Lia.
From Stdlib Require Import Sorted Permutation.
Import ListNotations.

Open Scope Z_scope.

(** ** JavaScript numbers

    [Math.random()] returns a binary64 number in the half open unit
    interval.  Every such number is [mant / 2 ^ expo] for a significand
    below [2 ^ 53] and a scale of at least 53 (and at most 1074, the
    scale of the smallest subnormal). *)

Record double01 : Set := mkDouble01 { mant : Z; expo : Z }.

Definition is_double01 (d : double01) : Prop :=
  0 <= mant d < 2 ^ 53 /\ 53 <= expo d <= 1074.

(** Rounding to 53 significant bits, to nearest and ties to even: what an
    arithmetic operation of binary64 does to its exact result.  The exact
    result is [n] plus, when [sticky] is set, a fraction strictly between
    0 and 1; a set [sticky] is only meaningful when [n] has more than 54
    bits.  With the integer read at a fixed scale [2 ^ - e] this is the
    binary64 rounding of the scaled value, since rounding to a number of
    significant bits commutes with scaling by a power of two. *)

Definition round_nearest (n : Z) (sticky : bool) : Z :=
  let sh := Z.log2 n - 52 in
  if sh <=? 0 then n
  else
    let q := n / 2 ^ sh in
    let r := n mod 2 ^ sh in
    let half := 2 ^ (sh - 1) in
    let up :=
      if r <? half then false
      else if half <? r then true
      else sticky || Z.odd q in
    (if up then q + 1 else q) * 2 ^ sh.

Definition round53 (n : Z) : Z := round_nearest n false.

(** [a / b] on non negative integers, [b] positive: the exact quotient is
    truncated at a scale that leaves it at least 55 bits, the remainder
    is the sticky bit, and the result is kept at that scale. *)

Definition quotient_scale (b : Z) : Z := Z.log2 b + 55.

Definition js_quotient (a b : Z) : Z :=
  let n := a * 2 ^ quotient_scale b in
  round_nearest (n / b) (negb (n mod b =? 0)).

(** The numbers [Math.ceil(total / limit)] can be. *)

Inductive jsnum : Set := Fin (z : Z) | PosInf | NaN.

Definition ceil_quotient (total limit : Z) : jsnum :=
  if limit =? 0 then (if total =? 0 then NaN else PosInf)
  else if 0 <? limit then
    Fin (- ((- js_quotient total limit) / 2 ^ quotient_scale limit))
  else
    Fin (- (js_quotient total (- limit) / 2 ^ quotient_scale (- limit))).

(** [Math.random() > 0.1].  The literal [0.1] denotes the binary64 number
    [3602879701896397 / 2 ^ 55]; the comparison is exact. *)

Definition tenth_num : Z := 3602879701896397.
Definition tenth_expo : Z := 55.

Definition gt_tenth (d : double01) : bool :=
  tenth_num * 2 ^ expo d <? mant d * 2 ^ tenth_expo.

(** [Math.floor(100000000000 + Math.random() * 900000000000)]: the
    product is rounded, the sum is rounded, the floor is exact.  Both
    intermediate values are kept at the scale of the draw. *)

Definition utr_product (d : double01) : Z :=
  round53 (mant d * 900000000000).

Definition utr_sum (d : double01) : Z :=
  round53 (100000000000 * 2 ^ expo d + utr_product d).

Definition utr_number (d : double01) : Z :=
  utr_sum d / 2 ^ expo d.

(** ** JavaScript strings *)

(** The digit characters of [Number.prototype.toString(radix)]:
    [0-9] then [a-z]. *)

Definition digit_char (d : Z) : ascii :=
  if d <? 10 then ascii_of_N (Z.to_N (48 + d))
  else ascii_of_N (Z.to_N (87 + d)).

Fixpoint radix_digits (fuel : nat) (b n : Z) : string :=
  match fuel with
  | O => EmptyString
  | S f =>
      if n <? b then String (digit_char n) EmptyString
      else (radix_digits f b (n / b)
              ++ String (digit_char (n mod b)) EmptyString)%string
  end.

(** [n.toString(radix)] for a non negative integer [n] below [1e21]. *)

Definition number_toString (radix n : Z) : string :=
  radix_digits (S (Z.to_nat (Z.log2 n))) radix n.

Definition upper_char (c : ascii) : ascii :=
  let k := N_of_ascii c in
  if ((97 <=? k) && (k <=? 122))%N then ascii_of_N (k - 32) else c.

Fixpoint toUpperCase (s : string) : string :=
  match s with
  | EmptyString => EmptyString
  | String c r => String (upper_char c) (toUpperCase r)
  end.

(** [buf.toString('hex')]: two lower case hexadecimal digits per byte. *)

Definition hex_byte (b : Z) : string :=
  String (digit_char (b / 16)) (String (digit_char (b mod 16)) EmptyString).

Fixpoint hex_bytes (bs : list Z) : string :=
  match bs with
  | [] => EmptyString
  | b :: r => (hex_byte b ++ hex_bytes r)%string
  end.

Definition is_digit (c : ascii) : bool :=
  let k := N_of_ascii c in ((48 <=? k) && (k <=? 57))%N.

Fixpoint all_digits (s : string) : bool :=
  match s with
  | EmptyString => true
  | String c r => is_digit c && all_digits r
  end.

(** The integer a string of decimal digits denotes. *)

Fixpoint decimal_from (acc : Z) (s : string) : Z :=
  match s with
  | EmptyString => acc
  | String c r => decimal_from (10 * acc + (Z.of_N (N_of_ascii c) - 48)) r
  end.

Definition decimal_value (s : string) : Z := decimal_from 0 s.

(** ** The identifier generators *)

(** [generateTransactionId]: the tag, the clock in base 36 and two random
    bytes in hexadecimal, both in upper case. *)

Definition generateTransactionId (now : Z) (rnd : list Z) : string :=
  ("TXN" ++ toUpperCase (number_toString 36 now)
         ++ toUpperCase (hex_bytes rnd))%string.

(** [generateUTRId], as a function of the draw of [Math.random()]. *)

Definition generateUTRId (d : double01) : string :=
  number_toString 10 (utr_number d).

(** ** The transaction collection *)

(** The [enum] of the schema's [status] path. *)

Inductive txStatus : Set := pending | success | failed.

Definition status_string (s : txStatus) : string :=
  match s with
  | pending => "pending"
  | success => "success"
  | failed => "failed"
  end.

Definition txStatus_eqb (a b : txStatus) : bool :=
  match a, b with
  | pending, pending | success, success | failed, failed => true
  | _, _ => false
  end.

(** A document of [transactionSchema].  Dates are instants in
    milliseconds; [None] is JavaScript's [null]. *)

Record Transaction : Type := mkTransaction {
  transactionId : string;
  utrId : option string;
  amount : Q;
  description : string;
  status : txStatus;
  upiId : string;
  date : Z;
  paymentDate : option Z
}.

(** The collection, in insertion order. *)

Definition collection : Type := list Transaction.

Definition has_id (id : string) (t : Transaction) : bool :=
  String.eqb (transactionId t) id.

(** [doc.save()] of a new document.  The schema declares [transactionId]
    [unique], so the insert is refused when the identifier is taken. *)

Definition save (t : Transaction) (db : collection) : option collection :=
  if existsb (has_id (transactionId t)) db then None else Some (db ++ [t]).

(** [Transaction.findOne({ transactionId })]. *)

Definition findOne (id : string) (db : collection) : option Transaction :=
  find (has_id id) db.

(** The update documents the server writes: the keys that are present. *)

Record update : Type := mkUpdate {
  set_status : option txStatus;
  set_utrId : option string;
  set_paymentDate : option Z
}.

Definition apply_update (u : update) (t : Transaction) : Transaction :=
  {| transactionId := transactionId t;
     utrId := match set_utrId u with Some r => Some r | None => utrId t end;
     amount := amount t;
     description := description t;
     status := match set_status u with Some s => s | None => status t end;
     upiId := upiId t;
     date := date t;
     paymentDate :=
       match set_paymentDate u with
       | Some p => Some p
       | None => paymentDate t
       end |}.

(** [Transaction.findOneAndUpdate({ transactionId }, u)]: the first
    document with the identifier is updated, nothing happens when there is
    none. *)

Fixpoint findOneAndUpdate (id : string) (u : update) (db : collection)
  : collection :=
  match db with
  | [] => []
  | t :: r =>
      if has_id id t then apply_update u t :: r
      else t :: findOneAndUpdate id u r
  end.

(** Query filters: the conjunction of the constraints that are present.
    [f_date] is the object under the [date] key, with its [$gte] and
    [$lte] operators. *)

Record dateRange : Type := mkDateRange {
  gte : option Z;
  lte : option Z
}.

Record filter : Type := mkFilter {
  f_status : option string;
  f_date : option dateRange
}.

Definition no_filter : filter := {| f_status := None; f_date := None |}.

Definition in_range (r : dateRange) (d : Z) : bool :=
  match gte r with Some lo => lo <=? d | None => true end
  && match lte r with Some hi => d <=? hi | None => true end.

Definition matches (f : filter) (t : Transaction) : bool :=
  match f_status f with
  | Some s => String.eqb (status_string (status t)) s
  | None => true
  end
  && match f_date f with Some r => in_range r (date t) | None => true end.

Definition find_all (f : filter) (db : collection) : collection :=
  List.filter (matches f) db.

Definition countDocuments (f : filter) (db : collection) : Z :=
  Z.of_nat (List.length (find_all f db)).

(** [.sort({ date: -1 })]: newest first.  MongoDB leaves the order of
    documents with equal dates open; the insertion sort below keeps their
    collection order. *)

Fixpoint insert_desc (t : Transaction) (l : collection) : collection :=
  match l with
  | [] => [t]
  | h :: r => if date h <=? date t then t :: l else h :: insert_desc t r
  end.

Definition sort_date_desc (l : collection) : collection :=
  fold_right insert_desc [] l.

(** [Transaction.find(f).sort({ date: -1 }).skip(n).limit(m)] is run by
    the store: it answers with documents or rejects the request.  The
    handler takes the store's answer as it comes, so what runs the query
    is a parameter of the handler. *)

Definition cursor : Type := filter -> Z -> Z -> collection -> option collection.

(** One store: it keeps the collection order among documents with equal
    dates, refuses a negative skip, reads a limit of zero as no limit and
    a negative limit as its absolute value, as MongoDB documents them. *)

Definition cursor_limit (n : Z) (l : collection) : collection :=
  if n =? 0 then l else firstn (Z.to_nat (Z.abs n)) l.

Definition find_page (f : filter) (skip limit : Z) (db : collection)
  : option collection :=
  if skip <? 0 then None
  else Some (cursor_limit limit
               (skipn (Z.to_nat skip) (sort_date_desc (find_all f db)))).

(** ** The server *)

(** The state: the collection and the armed timers, each holding the
    [transactionId] its callback closed over. *)

Record server : Type := mkServer {
  db : collection;
  timers : list string
}.

Definition boot : server := {| db := []; timers := [] |}.

(** *** POST /api/transactions *)

(** The fields the handler reads off the JSON body; [None] is a field
    that is absent.  [amount] is a JSON number. *)

Record createBody : Type := mkCreateBody {
  b_amount : option Q;
  b_description : option string;
  b_upiId : option string
}.

(** [!amount || amount <= 0] *)

Definition truthy_number (q : Q) : bool := negb (Qeq_bool q 0).

Definition invalid_amount (a : option Q) : bool :=
  match a with
  | None => true
  | Some q => negb (truthy_number q) || Qle_bool q 0
  end.

(** [s || fallback] on strings: the empty string is falsy. *)

Definition or_default (s : option string) (fallback : string) : string :=
  match s with
  | Some (String c r) => String c r
  | _ => fallback
  end.

Inductive createResponse : Type :=
| Created (id : string)      (* 201, status 'pending' *)
| InvalidAmount              (* 400 *)
| CreateError.               (* 500 *)

Definition create_code (r : createResponse) : Z :=
  match r with
  | Created _ => 201
  | InvalidAmount => 400
  | CreateError => 500
  end.

(** The handler reads the clock for the identifier, two random bytes, and
    the clock again for the default of [date]. *)

Definition new_transaction (id : string) (q : Q) (b : createBody) (now : Z)
  : Transaction :=
  {| transactionId := id;
     utrId := None;
     amount := q;
     description := or_default (b_description b) "Payment";
     status := pending;
     upiId := or_default (b_upiId b) "8618505915@fam";
     date := now;
     paymentDate := None |}.

Definition post_transaction (b : createBody) (now_id : Z) (rnd : list Z)
    (now_doc : Z) (s : server) : createResponse * server :=
  if invalid_amount (b_amount b) then (InvalidAmount, s)
  else
    let id := generateTransactionId now_id rnd in
    match b_amount b with
    | None => (CreateError, s)   (* [amount] is [required] *)
    | Some q =>
        match save (new_transaction id q b now_doc) (db s) with
        | None => (CreateError, s)
        | Some db' =>
            (Created id, {| db := db'; timers := timers s ++ [id] |})
        end
    end.

(** *** The timer callback *)

(** [success_draw] is the draw of the callback, [utr_draw] the one
    [generateUTRId] makes when the outcome is a success, [now] is
    [new Date()]. *)

Definition resolve_update (success_draw utr_draw : double01) (now : Z)
  : update :=
  if gt_tenth success_draw then
    {| set_status := Some success;
       set_utrId := Some (generateUTRId utr_draw);
       set_paymentDate := Some now |}
  else
    {| set_status := Some failed;
       set_utrId := None;
       set_paymentDate := None |}.

Definition resolve (id : string) (success_draw utr_draw : double01) (now : Z)
    (c : collection) : collection :=
  findOneAndUpdate id (resolve_update success_draw utr_draw now) c.

Fixpoint disarm (id : string) (ts : list string) : list string :=
  match ts with
  | [] => []
  | t :: r => if String.eqb t id then r else t :: disarm id r
  end.

Definition armed (id : string) (ts : list string) : bool :=
  existsb (String.eqb id) ts.

(** A timer fires once, and only if it was armed. *)

Definition fire_timer (id : string) (success_draw utr_draw : double01)
    (now : Z) (s : server) : server :=
  if armed id (timers s) then
    {| db := resolve id success_draw utr_draw now (db s);
       timers := disarm id (timers s) |}
  else s.

(** *** Runs of the server

    What changes the state: the creations and the timer callbacks, with
    what they read from the environment, the callbacks whose write is
    rejected, and the restarts of the process.  The read endpoints leave
    the state alone. *)

(** The write of the callback is rejected: the [catch] logs the error,
    the timer is spent and the document stays as it was. *)

Definition lose_timer (id : string) (s : server) : server :=
  if armed id (timers s) then
    {| db := db s; timers := disarm id (timers s) |}
  else s.

(** The process stops and starts again: the collection is durable, the
    timers are not. *)

Definition restart (s : server) : server := {| db := db s; timers := [] |}.

Inductive event : Type :=
| Create (b : createBody) (now_id : Z) (rnd : list Z) (now_doc : Z)
| Resolve (id : string) (success_draw utr_draw : double01) (now : Z)
| ResolveRejected (id : string)
| Restart.

Definition step (s : server) (e : event) : server :=
  match e with
  | Create b now_id rnd now_doc => snd (post_transaction b now_id rnd now_doc s)
  | Resolve id d1 d2 now => fire_timer id d1 d2 now s
  | ResolveRejected id => lose_timer id s
  | Restart => restart s
  end.

Definition run (es : list event) : server := fold_left step es boot.

(** *** GET /api/transactions/:id *)

Definition get_transaction (id : string) (s : server) : option Transaction :=
  findOne id (db s).

(** *** GET /api/transactions *)

(** The query parameters; [None] is a parameter that is absent.  The
    dates are the instants [new Date] reads off the parameter, [page] and
    [limit] the integers the parameter spells; on integers of the safe
    range [page - 1], the product with [limit] and [parseInt] are exact. *)

Record listQuery : Type := mkListQuery {
  q_status : option string;
  q_startDate : option Z;
  q_endDate : option Z;
  q_page : option Z;
  q_limit : option Z
}.

Definition with_status (s : string) (f : filter) : filter :=
  {| f_status := Some s; f_date := f_date f |}.

Definition with_date (r : dateRange) (f : filter) : filter :=
  {| f_status := f_status f; f_date := Some r |}.

Definition truthy_string (s : string) : bool :=
  match s with EmptyString => false | String _ _ => true end.

Definition build_filter (q : listQuery) : filter :=
  let f0 := no_filter in
  let f1 :=
    match q_status q with
    | Some s =>
        if truthy_string s && negb (String.eqb s "all") then with_status s f0
        else f0
    | None => f0
    end in
  let f2 :=
    match q_startDate q with
    | Some lo => with_date {| gte := Some lo; lte := None |} f1
    | None => f1
    end in
  match q_endDate q with
  | Some hi =>
      match f_date f2 with
      | Some r => with_date {| gte := gte r; lte := Some hi |} f2
      | None => with_date {| gte := None; lte := Some hi |} f2
      end
  | None => f2
  end.

Definition default_page : Z := 1.
Definition default_limit : Z := 10.

Definition page_of (q : listQuery) : Z :=
  match q_page q with Some p => p | None => default_page end.

Definition limit_of (q : listQuery) : Z :=
  match q_limit q with Some l => l | None => default_limit end.

Definition skip_of (q : listQuery) : Z := (page_of q - 1) * limit_of q.

Record pagination : Type := mkPagination {
  total : Z;
  page : Z;
  limit : Z;
  pages : jsnum
}.

Inductive listResponse : Type :=
| Listed (transactions : collection) (p : pagination)   (* 200 *)
| ListError.                                            (* 500 *)

Definition list_transactions_with (find : cursor) (q : listQuery)
    (s : server) : listResponse :=
  let f := build_filter q in
  match find f (skip_of q) (limit_of q) (db s) with
  | None => ListError
  | Some transactions =>
      let n := countDocuments f (db s) in
      Listed transactions
        {| total := n;
           page := page_of q;
           limit := limit_of q;
           pages := ceil_quotient n (limit_of q) |}
  end.

(** The handler on the store [find_page]. *)

Definition list_transactions (q : listQuery) (s : server) : listResponse :=
  list_transactions_with find_page q s.

(** *** GET /api/stats

    The counts and the sum; the series of the last seven days is left
    out. *)

Definition status_filter (s : txStatus) : filter :=
  {| f_status := Some (status_string s); f_date := None |}.

Definition sum_amount (l : collection) : Q :=
  fold_right (fun t acc => Qplus (amount t) acc) (0 # 1)%Q l.

Record stats : Type := mkStats {
  totalTransactions : Z;
  successfulTransactions : Z;
  pendingTransactions : Z;
  failedTransactions : Z;
  totalAmount : Q
}.

Definition get_stats (s : server) : stats :=
  {| totalTransactions := countDocuments no_filter (db s);
     successfulTransactions := countDocuments (status_filter success) (db s);
     pendingTransactions := countDocuments (status_filter pending) (db s);
     failedTransactions := countDocuments (status_filter failed) (db s);
     totalAmount := sum_amount (find_all (status_filter success) (db s)) |}.

(** ** Notions the statements below use *)

(** The largest value the rounded product of [generateUTRId] takes at the
    scale [2 ^ - j]: the binary64 number just below [900000000000]. *)

Definition utr_product_max (j : Z) : Z :=
  (900000000000 * 2 ^ 13 - 1) * 2 ^ (j - 13).

(** The draws of the engines are multiples of [2 ^ - 53]: [k / 2 ^ 53]
    for [k] below [grid_size].  A uniform draw takes each of them with
    the same probability. *)

Definition grid_draw (k : Z) : double01 := {| mant := k; expo := 53 |}.

Definition grid_size : Z := 2 ^ 53.

(** The number of grid draws for which the callback succeeds. *)

Definition success_draws : Z := 8106479329266892.

(** What a document looks like in each status. *)

Definition well_shaped (t : Transaction) : Prop :=
  match status t with
  | success => utrId t <> None /\ paymentDate t <> None
  | pending | failed => utrId t = None /\ paymentDate t = None
  end.

(** Identifiers identify, timers are armed once per stored identifier,
    and only documents without an armed timer have left [pending]. *)

Record consistent (s : server) : Prop := mkConsistent {
  ids_nodup : NoDup (map transactionId (db s));
  timers_nodup : NoDup (timers s);
  timers_stored : forall id, In id (timers s) ->
                  In id (map transactionId (db s));
  armed_pending : forall t, In t (db s) -> In (transactionId t) (timers s) ->
                  status t = pending;
  all_shaped : Forall well_shaped (db s)
}.

(** The fields the timer callback has no business with. *)

Definition same_frame (t t' : Transaction) : Prop :=
  transactionId t' = transactionId t /\
  amount t' = amount t /\
  description t' = description t /\
  upiId t' = upiId t /\
  date t' = date t.

(** Newest first. *)

Definition newer_or_equal (a b : Transaction) : Prop := date b <= date a.

(** Integers up to [safe_bound] in magnitude are binary64 numbers, and
    the coercions of the query parameters ([page - 1], the product with
    [limit], [parseInt]) are exact on them. *)

Definition safe_bound : Z := 2 ^ 53.


(** What a store does with a regular request, a skip that is not
    negative and a positive limit, both safe: it arranges the matching
    documents newest first, in an order of its choice among equal dates
    that may change from one request to the next, skips and limits. *)

Definition newest_first (f : filter) (c sorted : collection) : Prop :=
  Permutation sorted (find_all f c) /\
  StronglySorted newer_or_equal sorted.

Definition regular_cursor (find : cursor) : Prop :=
  forall f skip limit c,
    0 <= skip <= safe_bound -> 0 < limit <= safe_bound ->
    exists sorted,
      newest_first f c sorted /\
      find f skip limit c
      = Some (firstn (Z.to_nat limit) (skipn (Z.to_nat skip) sorted)).

(** Runs in which no write is rejected and the process keeps running. *)

Definition undisturbed (e : event) : Prop :=
  match e with
  | Create _ _ _ _ | Resolve _ _ _ _ => True
  | ResolveRejected _ | Restart => False
  end.

(** The reading of degenerate pagination the design document describes:
    a non positive page is taken as 1, a non positive limit as the
    default. *)


(** The status constraint of a listing, in the design document's words:
    applied when a status is supplied and is not the sentinel ['all']. *)

Definition status_wanted (q : listQuery) (t : Transaction) : bool :=
  match q_status q with
  | Some st =>
      if truthy_string st && negb (String.eqb st "all")
      then String.eqb (status_string (status t)) st
      else true
  | None => true
  end.

(** The closed interval of creation dates. *)

Definition in_interval (lo hi : Z) (t : Transaction) : bool :=
  (lo <=? date t) && (date t <=? hi).

(** ** Sample inputs *)

Definition sample_body : createBody :=
  {| b_amount := Some (100 # 1)%Q; b_description := None; b_upiId := None |}.

Definition sample_id : string := "TXNM2ZECQO0AB05".

Definition sample_create : event :=
  Create sample_body 1730505600000 [171; 5] 1730505600001.

(** A draw of zero fails the transaction, a draw of one half settles
    it. *)

Definition sample_failure : list event :=
  [sample_create;
   Resolve sample_id (grid_draw 0) (grid_draw 5) 1730505603001].

Definition sample_success : list event :=
  [sample_create;
   Resolve sample_id (grid_draw (2 ^ 52)) (grid_draw 5) 1730505603001].

(** The document the two sample runs end with. *)

Definition sample_settled : Transaction :=
  {| transactionId := sample_id;
     utrId := Some "100000000000"%string;
     amount := (100 # 1)%Q;
     description := "Payment";
     status := success;
     upiId := "8618505915@fam";
     date := 1730505600001;
     paymentDate := Some 1730505603001 |}.

Definition sample_failed : Transaction :=
  {| transactionId := sample_id;
     utrId := None;
     amount := (100 # 1)%Q;
     description := "Payment";
     status := failed;
     upiId := "8618505915@fam";
     date := 1730505600001;
     paymentDate := None |}.



Definition window_query : listQuery :=
  {| q_status := Some "success"%string;
     q_startDate := Some 1730505600000; q_endDate := Some 1730505700000;
     q_page := Some 1; q_limit := Some 10 |}.

(** ** More of the server *)

(** *** GET /api/stats, the daily series

    [lastWeek] is the instant [setDate(getDate() - 7)] leaves in the date
    read off the clock.  The pipeline keeps the documents created at or
    after it, groups them by the string [$dateToString] makes of their
    creation date with the format ['%Y-%m-%d'], and sorts the groups by
    that string.  The formatting is MongoDB's and is a parameter here;
    [ymd_string] below is what it computes for the years 0 to 9999.  As
    for [totalAmount], the sums of amounts are taken in [Q]. *)

Module Daily.

Record entry : Type := mkEntry {
  _id : string;
  count : Z;
  amount : Q
}.

End Daily.

Fixpoint insert_key (k : string) (l : list string) : list string :=
  match l with
  | [] => [k]
  | h :: r => if String.leb k h then k :: l else h :: insert_key k r
  end.

Definition sort_keys (l : list string) : list string :=
  fold_right insert_key [] l.

Section DailySeries.

Variable dateToString : Z -> string.

Definition day_of (t : Transaction) : string := dateToString (date t).

Definition since (lastWeek : Z) (c : collection) : collection :=
  List.filter (fun t => lastWeek <=? date t) c.

Definition on_day (k : string) (c : collection) : collection :=
  List.filter (fun t => String.eqb (day_of t) k) c.

Definition group_of (c : collection) (k : string) : Daily.entry :=
  {| Daily._id := k;
     Daily.count := Z.of_nat (List.length (on_day k c));
     Daily.amount := sum_amount (on_day k c) |}.

Definition dailyTransactions (lastWeek : Z) (c : collection)
  : list Daily.entry :=
  let matched := since lastWeek c in
  map (group_of matched)
      (sort_keys (nodup string_dec (map day_of matched))).

(** Whether a document falls on a day, as a number. *)

Definition day_hit (t : Transaction) (k : string) : Z :=
  if String.eqb (day_of t) k then 1 else 0.

End DailySeries.

Definition sum_over (f : string -> Z) (ks : list string) : Z :=
  fold_right (fun k acc => f k + acc) 0 ks.

(** The calendar date of an instant, in UTC: the day number since the
    epoch is turned into a year, a month and a day of the proleptic
    Gregorian calendar, counting the days of 400 year eras from the
    first of March. *)

Definition ms_per_day : Z := 86400000.

Definition civil_of_days (days : Z) : Z * Z * Z :=
  let z := days + 719468 in
  let era := z / 146097 in
  let doe := z mod 146097 in
  let yoe := (doe - doe / 1460 + doe / 36524 - doe / 146096) / 365 in
  let doy := doe - (365 * yoe + yoe / 4 - yoe / 100) in
  let mp := (5 * doy + 2) / 153 in
  let d := doy - (153 * mp + 2) / 5 + 1 in
  let m := if mp <? 10 then mp + 3 else mp - 9 in
  let y := yoe + era * 400 + (if m <=? 2 then 1 else 0) in
  (y, m, d).

Fixpoint zero_pad (width : nat) (s : string) : string :=
  match width with
  | O => s
  | S w =>
      if (String.length s <=? w)%nat then zero_pad w (String "0" s) else s
  end.

Definition ymd_string (instant : Z) : string :=
  let '(y, m, d) := civil_of_days (instant / ms_per_day) in
  (zero_pad 4 (number_toString 10 y) ++ "-"
   ++ zero_pad 2 (number_toString 10 m) ++ "-"
   ++ zero_pad 2 (number_toString 10 d))%string.

(** *** Paging through a listing *)

Definition records (r : listResponse) : collection :=
  match r with
  | Listed transactions _ => transactions
  | ListError => []
  end.

Definition with_page (p : Z) (q : listQuery) : listQuery :=
  {| q_status := q_status q;
     q_startDate := q_startDate q;
     q_endDate := q_endDate q;
     q_page := Some p;
     q_limit := q_limit q |}.

(** ** More notions for the statements *)

(** Reading an identifier back: the value of a string of digits and
    upper case letters in a radix of at most 36. *)

Definition digit_value (c : ascii) : Z :=
  let k := Z.of_N (N_of_ascii c) in
  if k <? 58 then k - 48 else k - 55.

Fixpoint radix_value_from (b acc : Z) (s : string) : Z :=
  match s with
  | EmptyString => acc
  | String c r => radix_value_from b (b * acc + digit_value c) r
  end.

Definition radix_value (b : Z) (s : string) : Z := radix_value_from b 0 s.

Definition is_upper_alnum (c : ascii) : bool :=
  let k := N_of_ascii c in
  (((48 <=? k) && (k <=? 57)) || ((65 <=? k) && (k <=? 90)))%N.

Fixpoint string_forall (p : ascii -> bool) (s : string) : bool :=
  match s with
  | EmptyString => true
  | String c r => p c && string_forall p r
  end.

Definition is_byte (b : Z) : Prop := 0 <= b < 256.

(** What validation and the defaults make of every stored document. *)

Definition valid_document (t : Transaction) : Prop :=
  (0 < amount t)%Q /\
  description t <> EmptyString /\
  upiId t <> EmptyString /\
  String.prefix "TXN" (transactionId t) = true.

(** Every pending document has its timer armed. *)

Definition pending_armed (s : server) : Prop :=
  forall t, In t (db s) -> status t = pending ->
            In (transactionId t) (timers s).

(** A later collection continues an earlier one: the documents it had,
    in place and with their frame, then the new ones. *)

Definition continues (earlier later : collection) : Prop :=
  exists kept added,
    later = kept ++ added /\ Forall2 same_frame earlier kept.

(** Whether a document matches a filter, as a number. *)

Definition hit (f : filter) (t : Transaction) : Z :=
  if matches f t then 1 else 0.

(** Keys in strictly ascending order. *)

Definition day_before (a b : Daily.entry) : Prop :=
  String.ltb (Daily._id a) (Daily._id b) = true.

Definition total_count (l : list Daily.entry) : Z :=
  fold_right (fun e acc => Daily.count e + acc) 0 l.

(** ** More sample inputs *)

Definition second_body : createBody :=
  {| b_amount := Some (25 # 2)%Q;
     b_description := Some "Coffee"%string;
     b_upiId := Some EmptyString |}.

Definition second_create : event :=
  Create second_body 1730592000000 [0; 255] 1730592000002.

Definition second_id : string := "TXNM30TSLC000FF".

Definition second_pending : Transaction :=
  {| transactionId := second_id;
     utrId := None;
     amount := (25 # 2)%Q;
     description := "Coffee";
     status := pending;
     upiId := "8618505915@fam";
     date := 1730592000002;
     paymentDate := None |}.

Definition all_query : listQuery :=
  {| q_status := None; q_startDate := None; q_endDate := None;
     q_page := None; q_limit := Some 1 |}.

Definition all_listed_query : listQuery :=
  {| q_status := None; q_startDate := None; q_endDate := None;
     q_page := None; q_limit := None |}.

Definition unknown_status_query : listQuery :=
  {| q_status := Some "refunded"%string;
     q_startDate := None; q_endDate := None;
     q_page := None; q_limit := None |}.

(** * Properties *)

(** ** The model on concrete inputs *)

Example round53_tie_down : round53 (2 ^ 53 + 1) = 2 ^ 53.
Proof. reflexivity. Qed.

Example round53_tie_up : round53 (2 ^ 53 + 3) = 2 ^ 53 + 4.
Proof. reflexivity. Qed.

Example round53_exact : round53 (2 ^ 53 - 1) = 2 ^ 53 - 1.
Proof. reflexivity. Qed.

Example tenth_is_not_above_itself :
  gt_tenth {| mant := tenth_num; expo := tenth_expo |} = false.
Proof. reflexivity. Qed.

Example utr_of_smallest_draw :
  generateUTRId (grid_draw 0) = "100000000000"%string.
Proof. reflexivity. Qed.

Example utr_of_half :
  generateUTRId (grid_draw (2 ^ 52)) = "550000000000"%string.
Proof. reflexivity. Qed.

Example ceil_quotient_samples :
  ceil_quotient 20 10 = Fin 2 /\ ceil_quotient 21 10 = Fin 3 /\
  ceil_quotient 0 10 = Fin 0 /\ ceil_quotient 1 3 = Fin 1 /\
  ceil_quotient 5 0 = PosInf /\ ceil_quotient 0 0 = NaN.
Proof. repeat split; reflexivity. Qed.

Example transaction_id_sample :
  generateTransactionId 1730505600000 [171; 5] = sample_id.
Proof. reflexivity. Qed.

Example run_sample_success :
  run sample_success = {| db := [sample_settled]; timers := [] |}.
Proof. reflexivity. Qed.

Example run_sample_failure :
  run sample_failure = {| db := [sample_failed]; timers := [] |}.
Proof. reflexivity. Qed.

Example rejected_write_leaves_pending :
  run [sample_create; ResolveRejected sample_id]
  = {| db := [ {| transactionId := sample_id; utrId := None;
                  amount := (100 # 1)%Q; description := "Payment";
                  status := pending; upiId := "8618505915@fam";
                  date := 1730505600001; paymentDate := None |} ];
       timers := [] |}.
Proof. reflexivity. Qed.

Example restart_loses_timers :
  timers (run [sample_create; second_create; Restart]) = [] /\
  List.length (db (run [sample_create; second_create; Restart])) = 2%nat.
Proof. split; reflexivity. Qed.

Example duplicate_id_is_refused :
  post_transaction sample_body 1730505600000 [171; 5] 1730505600002
    (run sample_success)
  = (CreateError, run sample_success).
Proof. reflexivity. Qed.

Example ymd_string_samples :
  ymd_string 0 = "1970-01-01"%string /\
  ymd_string (-1) = "1969-12-31"%string /\
  ymd_string 951782400000 = "2000-02-29"%string /\
  ymd_string 1730505600000 = "2024-11-02"%string /\
  ymd_string 1735689599999 = "2024-12-31"%string /\
  ymd_string 4102444800000 = "2100-01-01"%string.
Proof. repeat split; reflexivity. Qed.

Example daily_series_sample :
  dailyTransactions ymd_string 1730505600000
    (db (run [sample_create; second_create;
              Create sample_body 1730592000100 [1; 2] 1730592000200]))
  = [ {| Daily._id := "2024-11-02"; Daily.count := 1;
         Daily.amount := (100 # 1)%Q |};
      {| Daily._id := "2024-11-03"; Daily.count := 2;
         Daily.amount := Qplus (25 # 2) (Qplus (100 # 1) (0 # 1)) |} ].
Proof. reflexivity. Qed.

Example second_create_sample :
  run [sample_create; second_create]
  = {| db := [ {| transactionId := sample_id; utrId := None;
                  amount := (100 # 1)%Q; description := "Payment";
                  status := pending; upiId := "8618505915@fam";
                  date := 1730505600001; paymentDate := None |};
               second_pending ];
       timers := [sample_id; second_id] |}.
Proof. reflexivity. Qed.

(** ** Binary64 rounding *)

Ltac pow_pos := apply Z.pow_pos_nonneg; lia.

Lemma pow2_split (t sh : Z) : 0 <= sh <= t -> 2 ^ t = 2 ^ (t - sh) * 2 ^ sh.
Proof. intros H. rewrite <- Z.pow_add_r by lia. f_equal; lia. Qed.

Lemma round_nearest_between (n : Z) (st : bool) (lo hi t : Z) :
  0 <= t -> Z.log2 n - 52 <= t ->
  (2 ^ t | lo) -> (2 ^ t | hi) ->
  lo <= n <= hi ->
  lo <= round_nearest n st <= hi.
Proof.
  intros Ht Hsh [a Ha] [b Hb] Hn.
  unfold round_nearest.
  set (sh := Z.log2 n - 52) in *.
  destruct (Z.leb_spec sh 0) as [Hle | Hgt]; [lia |].
  rewrite (pow2_split t sh) in Ha, Hb by lia.
  assert (HP : 0 < 2 ^ sh) by pow_pos.
  assert (Hhalf : 0 < 2 ^ (sh - 1)) by pow_pos.
  pose proof (Z.div_mod n (2 ^ sh) ltac:(lia)) as Hdm.
  pose proof (Z.mod_pos_bound n (2 ^ sh) HP) as Hr.
  set (P := 2 ^ sh) in *. set (q := n / P) in *. set (r := n mod P) in *.
  set (a' := a * 2 ^ (t - sh)) in *. set (b' := b * 2 ^ (t - sh)) in *.
  assert (Hlo : lo = a' * P) by (subst a'; lia).
  assert (Hhi : hi = b' * P) by (subst b'; lia).
  assert (Haq : a' <= q) by nia.
  assert (Hqb : q <= b') by nia.
  assert (Hqb' : 0 < r -> q < b') by nia.
  destruct (Z.ltb_spec r (2 ^ (sh - 1))) as [H1 | H1].
  - nia.
  - assert (0 < r) by lia.
    destruct (Z.ltb_spec (2 ^ (sh - 1)) r) as [H2 | H2];
      [| destruct (st || Z.odd q)]; nia.
Qed.

Lemma log2_le_of_lt_pow2 (n k : Z) :
  0 <= k -> 0 <= n < 2 ^ (k + 1) -> Z.log2 n <= k.
Proof.
  intros Hk [H0 Hn].
  destruct (Z.eq_dec n 0) as [-> | Hne]; [simpl; lia |].
  assert (Z.log2 n < k + 1) by (apply Z.log2_lt_pow2; lia). lia.
Qed.

Lemma scale_split (j : Z) : 53 <= j ->
  2 ^ j = 9007199254740992 * 2 ^ (j - 53) /\
  2 ^ (j - 13) = 1099511627776 * 2 ^ (j - 53) /\
  1 <= 2 ^ (j - 53) /\ (53 < j -> 2 <= 2 ^ (j - 53)).
Proof.
  intros Hj.
  assert (H1 : 2 ^ j = 2 ^ 53 * 2 ^ (j - 53))
    by (rewrite <- Z.pow_add_r by lia; f_equal; lia).
  assert (H2 : 2 ^ (j - 13) = 2 ^ 40 * 2 ^ (j - 53))
    by (rewrite <- Z.pow_add_r by lia; f_equal; lia).
  assert (H3 : 0 < 2 ^ (j - 53)) by pow_pos.
  change (2 ^ 53) with 9007199254740992 in H1.
  change (2 ^ 40) with 1099511627776 in H2.
  repeat split; try lia.
  intros Hlt.
  assert (H4 : 2 ^ (j - 53) = 2 * 2 ^ (j - 54))
    by (rewrite <- (Z.pow_succ_r 2) by lia; f_equal; lia).
  assert (0 < 2 ^ (j - 54)) by pow_pos.
  lia.
Qed.

Lemma utr_product_bounds (d : double01) :
  is_double01 d -> 0 <= utr_product d <= utr_product_max (expo d).
Proof.
  destruct d as [m j].
  unfold is_double01, utr_product, utr_product_max, round53.
  cbn [mant expo]. intros [Hm Hj].
  change (2 ^ 53) with 9007199254740992 in Hm.
  change (2 ^ 13) with 8192.
  destruct (scale_split j ltac:(lia)) as (Hj1 & Hj2 & HP1 & HP2).
  destruct (Z_le_gt_dec (m * 900000000000)
              ((900000000000 * 8192 - 1) * 2 ^ (j - 13))) as [Hle | Hgt].
  - apply round_nearest_between with (t := j - 13); try lia.
    + assert (Z.log2 (m * 900000000000) <= 92).
      { apply log2_le_of_lt_pow2; [lia |].
        change (2 ^ (92 + 1)) with 9903520314283042199192993792. lia. }
      lia.
    + exists 0. lia.
    + exists (900000000000 * 8192 - 1). lia.
  - assert (j = 53).
    { destruct (Z.eq_dec j 53); [assumption |].
      specialize (HP2 ltac:(lia)). lia. }
    subst j. change (2 ^ (53 - 13)) with 1099511627776 in *.
    assert (m = 9007199254740991) by lia. subst m.
    vm_compute. split; discriminate.
Qed.

Lemma utr_number_range (d : double01) :
  is_double01 d -> 100000000000 <= utr_number d <= 999999999999.
Proof.
  intros Hd. pose proof (utr_product_bounds d Hd) as Hp.
  unfold utr_number, utr_sum, round53.
  destruct Hd as [Hm Hj]. set (j := expo d) in *.
  unfold utr_product_max in Hp. change (2 ^ 13) with 8192 in Hp.
  destruct (scale_split j ltac:(lia)) as (Hj1 & Hj2 & HP1 & _).
  set (p := utr_product d) in *.
  assert (Hpow : 0 < 2 ^ j) by pow_pos.
  assert (Hr : 100000000000 * 8192 * 2 ^ (j - 13)
               <= round_nearest (100000000000 * 2 ^ j + p) false
               <= (1000000000000 * 8192 - 1) * 2 ^ (j - 13)).
  { apply round_nearest_between with (t := j - 13); try lia.
    - assert (Z.log2 (100000000000 * 2 ^ j + p) <= j + 39).
      { apply log2_le_of_lt_pow2; [lia |].
        replace (j + 39 + 1) with (40 + j) by lia.
        rewrite Z.pow_add_r by lia. change (2 ^ 40) with 1099511627776. nia. }
      lia.
    - exists (100000000000 * 8192). lia.
    - exists (1000000000000 * 8192 - 1). lia. }
  set (s := round_nearest (100000000000 * 2 ^ j + p) false) in *.
  split.
  - apply Z.div_le_lower_bound; lia.
  - assert (s / 2 ^ j < 1000000000000); [| lia].
    apply Z.div_lt_upper_bound; lia.
Qed.

Lemma string_length_app (s1 s2 : string) :
  String.length (s1 ++ s2) = (String.length s1 + String.length s2)%nat.
Proof. induction s1 as [| c s1 IH]; simpl; [reflexivity | now rewrite IH]. Qed.

Lemma radix_digits_length (b : Z) (k : nat) :
  2 <= b -> forall (f : nat) (n : Z),
  (k < f)%nat -> b ^ Z.of_nat k <= n < b ^ (Z.of_nat k + 1) ->
  String.length (radix_digits f b n) = S k.
Proof.
  intros Hb. induction k as [| k IH]; intros f n Hf Hn.
  - destruct f as [| f]; [lia |]. cbn [radix_digits].
    change (Z.of_nat 0 + 1) with 1 in Hn. rewrite Z.pow_1_r in Hn.
    destruct (Z.ltb_spec n b); [reflexivity | lia].
  - destruct f as [| f]; [lia |].
    rewrite Nat2Z.inj_succ in Hn. unfold Z.succ in Hn.
    rewrite (Z.pow_add_r b (Z.of_nat k + 1) 1) in Hn by lia.
    rewrite (Z.pow_add_r b (Z.of_nat k) 1) in Hn by lia.
    rewrite Z.pow_1_r in Hn.
    assert (Hk0 : 0 < b ^ Z.of_nat k) by pow_pos.
    cbn [radix_digits].
    destruct (Z.ltb_spec n b) as [Hlt | Hge]; [nia |].
    rewrite string_length_app, (IH f (n / b)); [simpl; lia | lia |].
    split.
    + apply Z.div_le_lower_bound; lia.
    + apply Z.div_lt_upper_bound; [lia |].
      rewrite (Z.pow_add_r b (Z.of_nat k) 1) by lia. rewrite Z.pow_1_r. lia.
Qed.

Lemma digit_char_decimal (d : Z) :
  0 <= d < 10 ->
  is_digit (digit_char d) = true /\ Z.of_N (N_of_ascii (digit_char d)) - 48 = d.
Proof.
  intros H.
  assert (C : d = 0 \/ d = 1 \/ d = 2 \/ d = 3 \/ d = 4 \/ d = 5 \/ d = 6
              \/ d = 7 \/ d = 8 \/ d = 9) by lia.
  repeat (destruct C as [-> | C]; [split; reflexivity |]).
  subst d; split; reflexivity.
Qed.

Lemma all_digits_app (s1 s2 : string) :
  all_digits (s1 ++ s2) = all_digits s1 && all_digits s2.
Proof.
  induction s1 as [| c s1 IH]; simpl; [reflexivity |].
  now rewrite IH, andb_assoc.
Qed.

Lemma decimal_from_app (s1 s2 : string) (acc : Z) :
  decimal_from acc (s1 ++ s2) = decimal_from (decimal_from acc s1) s2.
Proof.
  revert acc. induction s1 as [| c s1 IH]; intros acc; simpl; [reflexivity |].
  apply IH.
Qed.

Lemma radix_digits_decimal (f : nat) : forall n : Z,
  0 <= n < 10 ^ Z.of_nat f ->
  all_digits (radix_digits f 10 n) = true /\
  decimal_value (radix_digits f 10 n) = n.
Proof.
  unfold decimal_value.
  induction f as [| f IH]; intros n Hn.
  - simpl in *. split; [reflexivity | lia].
  - rewrite Nat2Z.inj_succ, Z.pow_succ_r in Hn by lia.
    cbn [radix_digits].
    destruct (Z.ltb_spec n 10) as [Hlt | Hge].
    + destruct (digit_char_decimal n ltac:(lia)) as [Hd Hv].
      cbn [all_digits decimal_from]. rewrite Hd. split; [reflexivity | lia].
    + destruct (IH (n / 10)) as [IHd IHv].
      { split; [apply Z.div_pos; lia | apply Z.div_lt_upper_bound; lia]. }
      pose proof (Z.mod_pos_bound n 10 ltac:(lia)) as Hr.
      destruct (digit_char_decimal (n mod 10) Hr) as [Hd Hv].
      rewrite all_digits_app, decimal_from_app, IHd, IHv.
      cbn [all_digits decimal_from]. rewrite Hd, Hv. split; [reflexivity |].
      pose proof (Z.div_mod n 10 ltac:(lia)). lia.
Qed.

Lemma twelve_digits (n : Z) :
  100000000000 <= n <= 999999999999 ->
  String.length (number_toString 10 n) = 12%nat /\
  all_digits (number_toString 10 n) = true /\
  decimal_value (number_toString 10 n) = n.
Proof.
  intros Hn. unfold number_toString.
  assert (Hlog : 36 <= Z.log2 n).
  { apply Z.log2_le_pow2; [lia |]. change (2 ^ 36) with 68719476736. lia. }
  set (f := S (Z.to_nat (Z.log2 n))).
  assert (Hf : (37 <= f)%nat) by (subst f; lia).
  split.
  - apply (radix_digits_length 10 11); [lia | lia |].
    change (10 ^ Z.of_nat 11) with 100000000000.
    change (10 ^ (Z.of_nat 11 + 1)) with 1000000000000. lia.
  - apply radix_digits_decimal. split; [lia |].
    apply Z.lt_le_trans with (10 ^ 12).
    + change (10 ^ 12) with 1000000000000. lia.
    + apply Z.pow_le_mono_r; lia.
Qed.

Lemma round_nearest_rel (n : Z) (st : bool) :
  0 <= n -> (2 ^ 53 - 1) * n <= 2 ^ 53 * round_nearest n st.
Proof.
  intros Hn. unfold round_nearest.
  set (sh := Z.log2 n - 52).
  change (2 ^ 53) with 9007199254740992.
  destruct (Z.leb_spec sh 0) as [Hle | Hgt]; [lia |].
  assert (Hpos : 0 < n).
  { destruct (Z.eq_dec n 0) as [-> | ?]; [| lia]. subst sh. simpl in Hgt. lia. }
  assert (HP : 2 ^ sh = 2 * 2 ^ (sh - 1))
    by (rewrite <- (Z.pow_succ_r 2) by lia; f_equal; lia).
  assert (Hhalf : 9007199254740992 * 2 ^ (sh - 1) <= n).
  { change 9007199254740992 with (2 ^ 53). rewrite <- Z.pow_add_r by lia.
    replace (53 + (sh - 1)) with (Z.log2 n) by (subst sh; lia).
    apply Z.log2_spec; lia. }
  pose proof (Z.div_mod n (2 ^ sh) ltac:(lia)) as Hdm.
  pose proof (Z.mod_pos_bound n (2 ^ sh) ltac:(lia)) as Hr.
  set (q := n / 2 ^ sh) in *. set (r := n mod 2 ^ sh) in *.
  set (h := 2 ^ (sh - 1)) in *.
  destruct (Z.ltb_spec r h) as [H1 | H1]; [nia |].
  destruct (Z.ltb_spec h r) as [H2 | H2]; [nia |].
  destruct (st || Z.odd q); nia.
Qed.

Lemma quotient_scale_spec (b : Z) :
  0 < b ->
  0 <= quotient_scale b /\ 2 ^ 54 * b < 2 ^ quotient_scale b.
Proof.
  intros Hb. unfold quotient_scale.
  pose proof (Z.log2_nonneg b) as Hl.
  destruct (Z.log2_spec b Hb) as [_ Hlt].
  split; [lia |].
  replace (Z.log2 b + 55) with (54 + Z.succ (Z.log2 b)) by lia.
  rewrite Z.pow_add_r by lia.
  assert (0 < 2 ^ 54) by reflexivity. nia.
Qed.

Lemma js_quotient_ceil (a b : Z) :
  0 <= a < 2 ^ 53 -> 0 < b ->
  - ((- js_quotient a b) / 2 ^ quotient_scale b) = - ((- a) / b).
Proof.
  intros Ha Hb. unfold js_quotient.
  destruct (quotient_scale_spec b Hb) as [HK0 HK].
  set (K := quotient_scale b) in *.
  assert (HKpos : 0 < 2 ^ K) by pow_pos.
  change (2 ^ 53) with 9007199254740992 in Ha.
  change (2 ^ 54) with 18014398509481984 in HK.
  pose proof (Z.div_mod a b ltac:(lia)) as Hdm.
  pose proof (Z.mod_pos_bound a b Hb) as Hr0.
  set (n := a / b) in *. set (r0 := a mod b) in *.
  assert (Hn0 : 0 <= n) by (subst n; apply Z.div_pos; lia).
  assert (Hn53 : n < 9007199254740992) by nia.
  set (N := a * 2 ^ K).
  assert (HX1 : n * 2 ^ K <= N / b)
    by (apply Z.div_le_lower_bound; subst N; nia).
  assert (Hsh : Z.log2 (N / b) - 52 <= K).
  { assert (Z.log2 (N / b) <= 52 + K); [| lia].
    apply log2_le_of_lt_pow2; [lia |]. split; [lia |].
    apply Z.div_lt_upper_bound; [lia |].
    replace (52 + K + 1) with (53 + K) by lia. rewrite Z.pow_add_r by lia.
    change (2 ^ 53) with 9007199254740992. subst N. nia. }
  destruct (Z.eq_dec r0 0) as [Hz | Hnz].
  - (* the quotient is an integer and is not rounded *)
    assert (HX : N / b = n * 2 ^ K).
    { symmetry. apply Z.div_unique_exact; [lia | subst N; nia]. }
    assert (HY : n * 2 ^ K
                 <= round_nearest (N / b) (negb (N mod b =? 0))
                 <= n * 2 ^ K).
    { apply round_nearest_between with (t := K); try lia;
        exists n; reflexivity. }
    replace (round_nearest (N / b) (negb (N mod b =? 0))) with (n * 2 ^ K)
      by lia.
    rewrite <- Z.mul_opp_l, Z.div_mul by lia.
    replace (- a) with ((- n) * b) by lia. rewrite Z.div_mul by lia. lia.
  - (* the quotient lies strictly between two integers, and so does its
       rounding *)
    assert (HX2 : N / b < (n + 1) * 2 ^ K)
      by (apply Z.div_lt_upper_bound; [lia | subst N; nia]).
    assert (HY : n * 2 ^ K <= round_nearest (N / b) (negb (N mod b =? 0))
                 <= (n + 1) * 2 ^ K).
    { apply round_nearest_between with (t := K); try lia;
        [exists n | exists (n + 1)]; reflexivity. }
    pose proof (round_nearest_rel (N / b) (negb (N mod b =? 0)) ltac:(lia))
      as Hrel.
    change (2 ^ 53) with 9007199254740992 in Hrel.
    set (Y := round_nearest (N / b) (negb (N mod b =? 0))) in *.
    pose proof (Z.div_mod (2 ^ K) b ltac:(lia)) as Hg.
    pose proof (Z.mod_pos_bound (2 ^ K) b Hb) as Hgr.
    set (g := 2 ^ K / b) in *.
    assert (Hg54 : 18014398509481984 <= g) by nia.
    assert (HX3 : n * 2 ^ K + g <= N / b)
      by (apply Z.div_le_lower_bound; [lia | subst N; nia]).
    assert (Hnb : n * b <= 9007199254740990) by lia.
    assert (Hnk : n * 2 ^ K <= 9007199254740990 * (g + 1)).
    { apply Z.le_trans with (n * (b * (g + 1))).
      - apply Z.mul_le_mono_nonneg_l; lia.
      - rewrite Z.mul_assoc. apply Z.mul_le_mono_nonneg_r; lia. }
    assert (HYlt : n * 2 ^ K < Y) by nia.
    assert (E1 : (- Y) / 2 ^ K = - (n + 1)).
    { symmetry. apply Z.div_unique with (r := (n + 1) * 2 ^ K - Y); lia. }
    assert (E2 : (- a) / b = - (n + 1)).
    { symmetry. apply Z.div_unique with (r := b - r0); lia. }
    lia.
Qed.

Lemma ceil_quotient_exact (total limit : Z) :
  0 <= total < 2 ^ 53 -> 0 < limit ->
  ceil_quotient total limit = Fin (- ((- total) / limit)).
Proof.
  intros Ht Hl. unfold ceil_quotient.
  destruct (Z.eqb_spec limit 0); [lia |].
  destruct (Z.ltb_spec 0 limit); [| lia].
  now rewrite js_quotient_ceil.
Qed.

(** ** The server state *)

Lemma armed_In (id : string) (ts : list string) :
  armed id ts = true <-> In id ts.
Proof.
  unfold armed. rewrite existsb_exists. split.
  - intros (x & Hx & He). apply String.eqb_eq in He. now subst.
  - intros H. exists id. split; [assumption | apply String.eqb_refl].
Qed.

Lemma disarm_In (id x : string) (ts : list string) :
  In x (disarm id ts) -> In x ts.
Proof.
  induction ts as [| t r IH]; simpl; [tauto |].
  destruct (String.eqb_spec t id); simpl; tauto.
Qed.

Lemma disarm_NoDup (id : string) (ts : list string) :
  NoDup ts -> NoDup (disarm id ts) /\ ~ In id (disarm id ts).
Proof.
  induction 1 as [| t r Hnin Hnd [IH1 IH2]]; simpl.
  - split; [constructor | tauto].
  - destruct (String.eqb_spec t id) as [-> | Hne].
    + split; assumption.
    + split.
      * constructor; [| assumption]. intros Hin. apply Hnin.
        now apply disarm_In in Hin.
      * simpl. intros [He | Hin]; [congruence | tauto].
Qed.

Lemma has_id_true (id : string) (t : Transaction) :
  has_id id t = true <-> transactionId t = id.
Proof. unfold has_id. apply String.eqb_eq. Qed.

Lemma update_ids (id : string) (u : update) (c : collection) :
  map transactionId (findOneAndUpdate id u c) = map transactionId c.
Proof.
  induction c as [| t r IH]; simpl; [reflexivity |].
  destruct (has_id id t); simpl; [reflexivity | now rewrite IH].
Qed.

Lemma update_In (id : string) (u : update) (c : collection) (t' : Transaction) :
  In t' (findOneAndUpdate id u c) ->
  In t' c \/ exists t, In t c /\ transactionId t = id /\ t' = apply_update u t.
Proof.
  induction c as [| t r IH]; simpl; [tauto |].
  destruct (has_id id t) eqn:E; simpl.
  - intros [<- | Hin]; [| tauto].
    right. exists t. apply has_id_true in E. tauto.
  - intros [<- | Hin]; [tauto |].
    destruct (IH Hin) as [H | (t0 & H1 & H2 & H3)]; [tauto |].
    right. exists t0. tauto.
Qed.

Lemma update_frame (id : string) (u : update) (c : collection) :
  Forall2 (fun t t' => same_frame t t' /\ (transactionId t <> id -> t' = t))
    c (findOneAndUpdate id u c).
Proof.
  assert (R : forall t, same_frame t t) by (intros t; repeat split).
  induction c as [| t r IH]; simpl; [constructor |].
  destruct (has_id id t) eqn:E.
  - constructor.
    + split; [repeat split |]. apply has_id_true in E. congruence.
    + clear IH. induction r; constructor; auto.
  - constructor; [split; auto | assumption].
Qed.

Lemma resolve_update_shape (d1 d2 : double01) (now : Z) (t : Transaction) :
  status t = pending -> well_shaped t ->
  well_shaped (apply_update (resolve_update d1 d2 now) t).
Proof.
  unfold well_shaped, resolve_update. intros -> [Hu Hp].
  destruct (gt_tenth d1); simpl; [split; discriminate | tauto].
Qed.

Lemma save_spec (t : Transaction) (c c' : collection) :
  save t c = Some c' ->
  c' = c ++ [t] /\ ~ In (transactionId t) (map transactionId c).
Proof.
  unfold save. destruct (existsb _ c) eqn:E; [discriminate |].
  intros [= <-]. split; [reflexivity |].
  intros Hin. apply in_map_iff in Hin as (u & Hu & Hin).
  assert (existsb (has_id (transactionId t)) c = true); [| congruence].
  apply existsb_exists. exists u. split; [assumption | now apply has_id_true].
Qed.

Lemma post_transaction_consistent (b : createBody) (now_id : Z) (rnd : list Z)
    (now_doc : Z) (s : server) :
  consistent s -> consistent (snd (post_transaction b now_id rnd now_doc s)).
Proof.
  intros [Hids Hnd Hst Hpe Hsh]. unfold post_transaction.
  destruct (invalid_amount (b_amount b)); [now constructor |].
  destruct (b_amount b) as [q |]; [| now constructor].
  set (id := generateTransactionId now_id rnd).
  destruct (save _ (db s)) as [c' |] eqn:E; [| now constructor].
  apply save_spec in E as [-> Hfresh].
  cbn [transactionId new_transaction] in Hfresh.
  constructor; cbn [db timers snd].
  - rewrite map_app. apply NoDup_app;
      [assumption | repeat constructor; simpl; tauto |].
    intros x Hx [<- | []]. auto.
  - apply NoDup_app; [assumption | repeat constructor; simpl; tauto |].
    intros x Hx [<- | []]. auto.
  - intros x Hx. rewrite map_app, in_app_iff.
    apply in_app_iff in Hx as [Hx | Hx]; [auto |].
    right. exact Hx.
  - intros t Ht Hid.
    apply in_app_iff in Ht as [Ht | [<- | []]]; [| reflexivity].
    apply in_app_iff in Hid as [Hid | [Hid | []]]; [auto |].
    exfalso. apply Hfresh. rewrite Hid. now apply in_map.
  - apply Forall_app. split; [assumption |].
    repeat constructor.
Qed.

Lemma fire_timer_consistent (id : string) (d1 d2 : double01) (now : Z)
    (s : server) :
  consistent s -> consistent (fire_timer id d1 d2 now s).
Proof.
  intros Hc. unfold fire_timer.
  destruct (armed id (timers s)) eqn:Ha; [| assumption].
  apply armed_In in Ha. destruct Hc as [Hids Hnd Hst Hpe Hsh].
  destruct (disarm_NoDup id _ Hnd) as [Hnd' Hgone].
  unfold resolve. rewrite Forall_forall in Hsh.
  constructor; cbn [db timers].
  - now rewrite update_ids.
  - assumption.
  - intros x Hx. rewrite update_ids. apply Hst. now apply disarm_In in Hx.
  - intros t' Ht' Hid.
    apply update_In in Ht' as [Ht | (t & Ht & Hidt & ->)].
    + apply Hpe; [assumption |]. now apply disarm_In in Hid.
    + exfalso. apply Hgone. cbn [transactionId apply_update] in Hid. congruence.
  - apply Forall_forall. intros t' Ht'.
    apply update_In in Ht' as [Ht | (t & Ht & Hidt & ->)]; [auto |].
    apply resolve_update_shape; [| auto].
    apply Hpe; [assumption | congruence].
Qed.

Lemma lose_timer_consistent (id : string) (s : server) :
  consistent s -> consistent (lose_timer id s).
Proof.
  intros Hc. unfold lose_timer.
  destruct (armed id (timers s)); [| assumption].
  destruct Hc as [Hids Hnd Hst Hpe Hsh].
  destruct (disarm_NoDup id _ Hnd) as [Hnd' _].
  constructor; cbn [db timers]; try assumption.
  - intros x Hx. apply Hst. now apply disarm_In in Hx.
  - intros t Ht Hid. apply Hpe; [assumption |]. now apply disarm_In in Hid.
Qed.

Lemma restart_consistent (s : server) : consistent s -> consistent (restart s).
Proof.
  intros [Hids Hnd Hst Hpe Hsh].
  constructor; cbn [db timers restart]; try assumption.
  - constructor.
  - intros x [].
  - intros t _ [].
Qed.

Lemma boot_consistent : consistent boot.
Proof. constructor; simpl; try tauto; constructor. Qed.

Lemma step_consistent (s : server) (e : event) :
  consistent s -> consistent (step s e).
Proof.
  destruct e; simpl;
    [apply post_transaction_consistent | apply fire_timer_consistent
    | apply lose_timer_consistent | apply restart_consistent].
Qed.

Lemma run_consistent (es : list event) : consistent (run es).
Proof.
  unfold run. generalize boot_consistent. generalize boot.
  induction es as [| e es IH]; intros s Hs; simpl; [assumption |].
  apply IH. now apply step_consistent.
Qed.

(** ** The settlement reference generator *)

(** C9: whatever binary64 number of the unit interval [Math.random()]
    draws, [generateUTRId] returns a string of exactly twelve decimal
    digits, and the integer it denotes lies between 100000000000 and
    999999999999. *)
Theorem generateUTRId_twelve_digits (d : double01) :
  is_double01 d ->
  String.length (generateUTRId d) = 12%nat /\
  all_digits (generateUTRId d) = true /\
  decimal_value (generateUTRId d) = utr_number d /\
  100000000000 <= decimal_value (generateUTRId d) <= 999999999999.
Proof.
  intros Hd. pose proof (utr_number_range d Hd) as Hr.
  destruct (twelve_digits (utr_number d) Hr) as (Hl & Hdig & Hv).
  unfold generateUTRId. rewrite Hv. auto.
Qed.

Lemma generateUTRId_largest_draw :
  is_double01 (grid_draw (2 ^ 53 - 1)) /\
  generateUTRId (grid_draw (2 ^ 53 - 1)) = "999999999999"%string /\
  decimal_value (generateUTRId (grid_draw (2 ^ 53 - 1))) = 999999999999.
Proof.
  assert (H : is_double01 (grid_draw (2 ^ 53 - 1)))
    by (unfold is_double01; simpl; lia).
  pose proof (generateUTRId_twelve_digits _ H) as (_ & _ & Hv & _).
  split; [exact H |]. split; [reflexivity |].
  rewrite Hv. reflexivity.
Defined.

(** ** Creation *)

(** C3: a creation request whose amount is missing, zero or negative is
    answered with the client error 400, and leaves the server as it was:
    no document is inserted and no timer is armed. *)
Theorem post_transaction_rejects (b : createBody) (now_id : Z) (rnd : list Z)
    (now_doc : Z) (s : server) :
  match b_amount b with
  | None => True
  | Some q => (q <= 0)%Q
  end ->
  post_transaction b now_id rnd now_doc s = (InvalidAmount, s) /\
  create_code (fst (post_transaction b now_id rnd now_doc s)) = 400 /\
  db (snd (post_transaction b now_id rnd now_doc s)) = db s /\
  timers (snd (post_transaction b now_id rnd now_doc s)) = timers s.
Proof.
  intros H.
  assert (E : post_transaction b now_id rnd now_doc s = (InvalidAmount, s)).
  { unfold post_transaction, invalid_amount.
    destruct (b_amount b) as [q |]; [| reflexivity].
    apply Qle_bool_iff in H. rewrite H, orb_true_r. reflexivity. }
  rewrite E. repeat split.
Qed.

Lemma post_transaction_rejects_zero :
  post_transaction
    {| b_amount := Some (0 # 1)%Q; b_description := None; b_upiId := None |}
    1730505600000 [171; 5] 1730505600001 (run sample_success)
  = (InvalidAmount, run sample_success).
Proof.
  apply (post_transaction_rejects
           {| b_amount := Some (0 # 1)%Q; b_description := None;
              b_upiId := None |}).
  simpl. discriminate.
Defined.

(** ** Statistics *)

Lemma count_by_status (c : collection) :
  countDocuments no_filter c =
  countDocuments (status_filter success) c
  + countDocuments (status_filter pending) c
  + countDocuments (status_filter failed) c.
Proof.
  unfold countDocuments, find_all.
  induction c as [| t r IH]; [reflexivity |].
  cbn [List.filter].
  assert (E : forall st,
             matches (status_filter st) t = txStatus_eqb (status t) st).
  { intros st. unfold matches, status_filter. cbn [f_status f_date].
    rewrite andb_true_r. destruct (status t), st; reflexivity. }
  rewrite !E. change (matches no_filter t) with true.
  destruct (status t); cbn [txStatus_eqb List.length]; lia.
Qed.

(** C8: the total count of the statistics is the sum of the counts of
    successful, pending and failed transactions read off the same
    collection, every document having one of the three statuses. *)
Theorem stats_total_is_sum (s : server) :
  totalTransactions (get_stats s) =
  successfulTransactions (get_stats s)
  + pendingTransactions (get_stats s)
  + failedTransactions (get_stats s).
Proof. unfold get_stats; cbn. apply count_by_status. Qed.

(** ** Resolution *)

(** C10: the timer callback, whatever its outcome, leaves the
    identifier, amount, description, payee address and creation date of
    every document as they were, leaves the documents of other
    identifiers untouched, and neither adds nor removes a document. *)
Theorem fire_timer_frame (id : string) (d1 d2 : double01) (now : Z)
    (s : server) :
  Forall2 (fun t t' => same_frame t t' /\ (transactionId t <> id -> t' = t))
    (db s) (db (fire_timer id d1 d2 now s)).
Proof.
  unfold fire_timer. destruct (armed id (timers s)).
  - apply update_frame.
  - assert (R : forall t, same_frame t t) by (intros t; repeat split).
    induction (db s); constructor; auto.
Qed.

Lemma run_well_shaped (es : list event) (t : Transaction) :
  In t (db (run es)) -> well_shaped t.
Proof.
  intros Hin. destruct (run_consistent es) as [_ _ _ _ Hsh].
  rewrite Forall_forall in Hsh. now apply Hsh.
Qed.

Lemma well_shaped_spec (t : Transaction) :
  well_shaped t ->
  (utrId t <> None <-> status t = success) /\
  (paymentDate t <> None <-> status t = success).
Proof.
  unfold well_shaped.
  destruct (status t); intros [Hu Hp]; repeat split; intros H;
    try assumption; try reflexivity; try discriminate; congruence.
Qed.

(** C4: in every state the server reaches, a document has a settlement
    reference exactly when its status is success. *)
Theorem utrId_iff_success (es : list event) (t : Transaction) :
  In t (db (run es)) -> (utrId t <> None <-> status t = success).
Proof.
  intros Hin. now apply well_shaped_spec, (run_well_shaped es).
Qed.

Lemma utrId_iff_success_sample :
  In sample_settled (db (run sample_success)) /\
  (utrId sample_settled <> None <-> status sample_settled = success).
Proof.
  assert (H : In sample_settled (db (run sample_success)))
    by (vm_compute; left; reflexivity).
  split; [exact H | exact (utrId_iff_success sample_success sample_settled H)].
Defined.

(** C1, as the design document has it, fails: the failing branch of the
    callback writes the status only, so a failed transaction keeps a
    null [paymentDate]. *)
Lemma failed_keeps_null_paymentDate :
  In sample_failed (db (run sample_failure)) /\
  status sample_failed <> pending /\
  paymentDate sample_failed = None /\
  ~ (forall (es : list event) (t : Transaction),
       In t (db (run es)) ->
       (paymentDate t <> None <-> status t <> pending)).
Proof.
  assert (H : In sample_failed (db (run sample_failure)))
    by (vm_compute; left; reflexivity).
  split; [exact H |]. split; [discriminate |]. split; [reflexivity |].
  intros C. destruct (C sample_failure sample_failed H) as [_ C2].
  apply C2; [discriminate | reflexivity].
Qed.

(** C1, amended: in every state the server reaches, a document has a
    [paymentDate] exactly when its status is success; it is null while
    the transaction is pending and stays null when it fails. *)
Theorem paymentDate_iff_success (es : list event) (t : Transaction) :
  In t (db (run es)) -> (paymentDate t <> None <-> status t = success).
Proof.
  intros Hin. now apply well_shaped_spec, (run_well_shaped es).
Qed.

Lemma paymentDate_iff_success_sample :
  In sample_failed (db (run sample_failure)) /\
  (paymentDate sample_failed <> None <-> status sample_failed = success).
Proof.
  assert (H : In sample_failed (db (run sample_failure)))
    by (vm_compute; left; reflexivity).
  split; [exact H |].
  exact (paymentDate_iff_success sample_failure sample_failed H).
Defined.

Lemma findOne_update (id : string) (u : update) (c : collection) :
  findOne id (findOneAndUpdate id u c)
  = option_map (apply_update u) (findOne id c).
Proof.
  unfold findOne. induction c as [| t r IH]; [reflexivity |].
  cbn [findOneAndUpdate find]. destruct (has_id id t) eqn:E.
  - cbn [find]. change (has_id id (apply_update u t)) with (has_id id t).
    now rewrite E.
  - cbn [find]. now rewrite E.
Qed.

Lemma findOne_stored (id : string) (c : collection) :
  In id (map transactionId c) ->
  exists t, findOne id c = Some t /\ In t c /\ transactionId t = id.
Proof.
  unfold findOne. induction c as [| t r IH]; simpl; [tauto |].
  destruct (has_id id t) eqn:E.
  - intros _. exists t. apply has_id_true in E. tauto.
  - intros [He | Hin].
    + apply has_id_true in He. congruence.
    + destruct (IH Hin) as (u & H1 & H2 & H3). exists u. tauto.
Qed.

Lemma gt_tenth_grid (k : Z) :
  gt_tenth (grid_draw k) = true <-> 900719925474100 <= k.
Proof.
  unfold gt_tenth, grid_draw, tenth_num, tenth_expo. cbn [mant expo].
  rewrite Z.ltb_lt.
  change (2 ^ 53) with 9007199254740992.
  change (2 ^ 55) with 36028797018963968. lia.
Qed.

(** C2: when the timer of a created transaction fires, the callback
    draws a number; above 0.1 the transaction becomes a success with a
    freshly generated settlement reference and the time of the
    resolution, otherwise it becomes failed and has no settlement
    reference.  Of the equally likely draws, those above one tenth
    succeed: nine tenths of them, up to the grain of the draw. *)
Theorem resolve_outcome (es : list event) (id : string)
    (success_draw utr_draw : double01) (now : Z) :
  armed id (timers (run es)) = true ->
  (exists t t',
     findOne id (db (run es)) = Some t /\
     status t = pending /\
     findOne id (db (fire_timer id success_draw utr_draw now (run es)))
     = Some t' /\
     if gt_tenth success_draw
     then status t' = success /\
          utrId t' = Some (generateUTRId utr_draw) /\
          paymentDate t' = Some now
     else status t' = failed /\ utrId t' = None) /\
  (forall k, 0 <= k < grid_size ->
     (gt_tenth (grid_draw k) = true <-> grid_size < 10 * k) /\
     (gt_tenth (grid_draw k) = true <-> grid_size - success_draws <= k)) /\
  success_draws = 9 * grid_size / 10.
Proof.
  intros Ha. split; [| split].
  - destruct (run_consistent es) as [_ _ Hst Hpe Hsh].
    pose proof Ha as Hin. apply armed_In in Hin.
    destruct (findOne_stored id _ (Hst id Hin)) as (t & Hf & Ht & Hid).
    assert (Hp : status t = pending) by (apply Hpe; [assumption | congruence]).
    rewrite Forall_forall in Hsh. specialize (Hsh t Ht).
    unfold well_shaped in Hsh. rewrite Hp in Hsh. destruct Hsh as [Hu _].
    exists t, (apply_update (resolve_update success_draw utr_draw now) t).
    split; [assumption |]. split; [assumption |]. split.
    + unfold fire_timer. rewrite Ha. cbn [db]. unfold resolve.
      now rewrite findOne_update, Hf.
    + unfold resolve_update. destruct (gt_tenth success_draw); cbn; auto.
  - intros k Hk. rewrite gt_tenth_grid. unfold grid_size, success_draws.
    change (2 ^ 53) with 9007199254740992. lia.
  - reflexivity.
Qed.

Lemma resolve_outcome_sample :
  armed sample_id (timers (run [sample_create])) = true /\
  exists t t',
    findOne sample_id (db (run [sample_create])) = Some t /\
    status t = pending /\
    findOne sample_id
      (db (fire_timer sample_id (grid_draw (2 ^ 52)) (grid_draw 5)
             1730505603001 (run [sample_create]))) = Some t' /\
    status t' = success /\
    utrId t' = Some "100000000000"%string /\
    paymentDate t' = Some 1730505603001.
Proof.
  split; [reflexivity |].
  destruct (resolve_outcome [sample_create] sample_id (grid_draw (2 ^ 52))
              (grid_draw 5) 1730505603001 eq_refl)
    as [(t & t' & H1 & H2 & H3 & H4) _].
  change (gt_tenth (grid_draw (2 ^ 52))) with true in H4.
  destruct H4 as (H4 & H5 & H6).
  exists t, t'.
  repeat split;
    [exact H1 | exact H2 | exact H3 | exact H4 | exact H5 | exact H6].
Defined.

(** ** Listing *)

Lemma insert_desc_perm (t : Transaction) (l : collection) :
  Permutation (insert_desc t l) (t :: l).
Proof.
  induction l as [| h r IH]; simpl; [reflexivity |].
  destruct (date h <=? date t); [reflexivity |].
  rewrite IH. apply perm_swap.
Qed.

Lemma sort_date_desc_perm (l : collection) :
  Permutation (sort_date_desc l) l.
Proof.
  induction l as [| t r IH]; simpl; [reflexivity |].
  rewrite insert_desc_perm. now constructor.
Qed.

Lemma insert_desc_sorted (t : Transaction) (l : collection) :
  StronglySorted newer_or_equal l ->
  StronglySorted newer_or_equal (insert_desc t l).
Proof.
  induction 1 as [| h r Hs IH Hall]; simpl.
  - repeat constructor.
  - destruct (Z.leb_spec (date h) (date t)) as [Hle | Hgt].
    + constructor; [now constructor |].
      constructor; [exact Hle |].
      eapply Forall_impl; [| exact Hall].
      unfold newer_or_equal. intros x Hx. lia.
    + constructor; [assumption |].
      apply Forall_forall. intros x Hx.
      apply (Permutation_in _ (insert_desc_perm t r)) in Hx.
      destruct Hx as [<- | Hx].
      * unfold newer_or_equal. lia.
      * rewrite Forall_forall in Hall. auto.
Qed.

Lemma sort_date_desc_sorted (l : collection) :
  StronglySorted newer_or_equal (sort_date_desc l).
Proof.
  induction l as [| t r IH]; simpl; [constructor |].
  now apply insert_desc_sorted.
Qed.



Lemma find_page_regular : regular_cursor find_page.
Proof.
  intros f skip limit c Hs Hl.
  exists (sort_date_desc (find_all f c)). split.
  - split; [apply sort_date_desc_perm | apply sort_date_desc_sorted].
  - unfold find_page, cursor_limit.
    destruct (Z.ltb_spec skip 0); [lia |].
    destruct (Z.eqb_spec limit 0); [lia |].
    now rewrite Z.abs_eq by lia.
Qed.

Lemma list_with_regular (find : cursor) (q : listQuery) (s : server) :
  regular_cursor find ->
  0 <= skip_of q <= safe_bound -> 0 < limit_of q <= safe_bound ->
  exists sorted,
    newest_first (build_filter q) (db s) sorted /\
    list_transactions_with find q s
    = Listed (firstn (Z.to_nat (limit_of q))
                (skipn (Z.to_nat (skip_of q)) sorted))
        {| total := countDocuments (build_filter q) (db s);
           page := page_of q;
           limit := limit_of q;
           pages := ceil_quotient (countDocuments (build_filter q) (db s))
                      (limit_of q) |}.
Proof.
  intros Hreg Hs Hl.
  destruct (Hreg (build_filter q) (skip_of q) (limit_of q) (db s) Hs Hl)
    as (sorted & Hn & E).
  exists sorted. split; [exact Hn |].
  unfold list_transactions_with. now rewrite E.
Qed.



Lemma matches_build_filter (q : listQuery) (t : Transaction) :
  matches (build_filter q) t =
  status_wanted q t
  && match q_startDate q with Some lo => lo <=? date t | None => true end
  && match q_endDate q with Some hi => date t <=? hi | None => true end.
Proof.
  destruct q as [st sd ed pg lm]. unfold build_filter, status_wanted.
  cbn [q_status q_startDate q_endDate].
  destruct st as [st |];
    [destruct (truthy_string st && negb (String.eqb st "all")) |];
    destruct sd, ed;
    unfold matches, with_date, with_status, no_filter, in_range;
    cbn [f_status f_date gte lte];
    rewrite ?andb_true_r, ?andb_true_l, ?andb_assoc, ?andb_true_r;
    reflexivity.
Qed.

Lemma status_wanted_spec (q : listQuery) (t : Transaction) :
  status_wanted q t = true <->
  (forall st, q_status q = Some st -> st <> ""%string -> st <> "all"%string ->
              status_string (status t) = st).
Proof.
  unfold status_wanted. destruct (q_status q) as [st0 |].
  - destruct (truthy_string st0 && negb (String.eqb st0 "all")) eqn:E.
    + apply andb_true_iff in E as [E1 E2]. apply negb_true_iff in E2.
      apply String.eqb_neq in E2. rewrite String.eqb_eq. split.
      * intros H st [= <-] _ _. exact H.
      * intros H. apply H; [reflexivity | | assumption].
        intros ->. discriminate.
    + split; [| reflexivity]. intros _ st [= <-] Hne Hall. exfalso.
      apply andb_false_iff in E as [E | E].
      * destruct st0; [now apply Hne | discriminate].
      * apply negb_false_iff, String.eqb_eq in E. now apply Hall.
  - split; [discriminate | reflexivity].
Qed.

Section Slices.
Context {A : Type}.

Lemma in_skipn (n : nat) (l : list A) (x : A) :
  In x (skipn n l) -> In x l.
Proof.
  intros H. rewrite <- (firstn_skipn n l). apply in_or_app. now right.
Qed.

Lemma in_firstn (n : nat) (l : list A) (x : A) :
  In x (firstn n l) -> In x l.
Proof.
  intros H. rewrite <- (firstn_skipn n l). apply in_or_app. now left.
Qed.

End Slices.

Lemma in_cursor_limit (n : Z) (l : collection) (x : Transaction) :
  In x (cursor_limit n l) -> In x l.
Proof.
  unfold cursor_limit. destruct (n =? 0); [trivial | apply in_firstn].
Qed.

Lemma list_transactions_listed (q : listQuery) (s : server)
    (txs : collection) (pg : pagination) :
  list_transactions q s = Listed txs pg ->
  incl txs (find_all (build_filter q) (db s)) /\
  total pg = countDocuments (build_filter q) (db s) /\
  page pg = page_of q /\ limit pg = limit_of q.
Proof.
  unfold list_transactions, list_transactions_with, find_page.
  destruct (skip_of q <? 0); [discriminate |].
  intros [= <- <-]. cbn. repeat split.
  intros x Hx. apply in_cursor_limit, in_skipn in Hx.
  now apply (Permutation_in _ (sort_date_desc_perm _)) in Hx.
Qed.

Lemma list_with_total (find : cursor) (q : listQuery) (s : server)
    (txs : collection) (pg : pagination) :
  list_transactions_with find q s = Listed txs pg ->
  total pg = countDocuments (build_filter q) (db s) /\
  page pg = page_of q /\ limit pg = limit_of q /\
  pages pg = ceil_quotient (total pg) (limit_of q) /\
  find (build_filter q) (skip_of q) (limit_of q) (db s) = Some txs.
Proof.
  unfold list_transactions_with.
  destruct (find _ _ _ _) as [l |]; [| discriminate].
  intros [= <- <-]. cbn. repeat split.
Qed.

(** C6: a document matches the filter of a listing exactly when it
    meets the status constraint, applied only for a status that is
    supplied and is not ['all'], the lower bound on the creation date if
    one is supplied and the upper bound if one is supplied.  With both
    dates supplied, the documents found and counted are those of the
    collection that meet the status constraint and whose creation date
    lies in the closed interval; the total of every answer is their
    number, and for a regular page request the documents returned are
    the requested slice of exactly these documents, arranged newest
    first: all of them, and no others, when they fit on the first
    page. *)
Theorem list_filter_conjunction (q : listQuery) (s : server) :
  (forall t,
     matches (build_filter q) t = true <->
     (forall st, q_status q = Some st -> st <> ""%string ->
                 st <> "all"%string -> status_string (status t) = st) /\
     (forall lo, q_startDate q = Some lo -> lo <= date t) /\
     (forall hi, q_endDate q = Some hi -> date t <= hi)) /\
  (forall lo hi, q_startDate q = Some lo -> q_endDate q = Some hi ->
     let wanted :=
       List.filter (fun t => status_wanted q t && in_interval lo hi t) (db s) in
     find_all (build_filter q) (db s) = wanted /\
     countDocuments (build_filter q) (db s) = Z.of_nat (List.length wanted) /\
     (forall find txs pg,
        list_transactions_with find q s = Listed txs pg ->
        total pg = Z.of_nat (List.length wanted)) /\
     (forall find,
        regular_cursor find ->
        0 < page_of q <= safe_bound -> 0 < limit_of q <= safe_bound ->
        skip_of q <= safe_bound ->
        exists sorted txs pg,
          Permutation sorted wanted /\
          StronglySorted newer_or_equal sorted /\
          list_transactions_with find q s = Listed txs pg /\
          txs = firstn (Z.to_nat (limit_of q))
                  (skipn (Z.to_nat (skip_of q)) sorted) /\
          (page_of q = 1 ->
           Z.of_nat (List.length wanted) <= limit_of q ->
           Permutation txs wanted))).
Proof.
  split.
  - intros t. rewrite matches_build_filter, !andb_true_iff, status_wanted_spec.
    split.
    + intros [[Hs Hlo] Hhi]. split; [exact Hs |]. split.
      * intros lo E. rewrite E in Hlo. now apply Z.leb_le.
      * intros hi E. rewrite E in Hhi. now apply Z.leb_le.
    + intros (Hs & Hlo & Hhi). repeat split; [exact Hs | |].
      * destruct (q_startDate q) as [lo |]; [| reflexivity].
        apply Z.leb_le. now apply Hlo.
      * destruct (q_endDate q) as [hi |]; [| reflexivity].
        apply Z.leb_le. now apply Hhi.
  - intros lo hi Elo Ehi wanted.
    assert (E : find_all (build_filter q) (db s) = wanted).
    { unfold find_all, wanted. apply filter_ext. intros t.
      rewrite matches_build_filter, Elo, Ehi. unfold in_interval.
      now rewrite andb_assoc. }
    assert (Ec : countDocuments (build_filter q) (db s)
                 = Z.of_nat (List.length wanted))
      by (unfold countDocuments; now rewrite E).
    split; [exact E |]. split; [exact Ec |]. split.
    + intros find txs pg H. apply list_with_total in H as (Ht & _).
      now rewrite Ht.
    + intros find Hreg Hp Hl Hs.
      assert (Hs0 : 0 <= skip_of q) by (unfold skip_of; nia).
      destruct (list_with_regular find q s Hreg ltac:(lia) Hl)
        as (sorted & [Hperm Hsorted] & H).
      rewrite E in Hperm.
      eexists sorted, _, _.
      split; [exact Hperm |]. split; [exact Hsorted |].
      split; [exact H |]. split; [reflexivity |].
      intros Hp1 Hfit. unfold skip_of. rewrite Hp1.
      cbn [Z.sub Z.add Z.opp Z.pos_sub Z.mul Z.to_nat skipn].
      rewrite firstn_all2; [exact Hperm |].
      rewrite (Permutation_length Hperm). lia.
Qed.

Lemma list_filter_conjunction_sample :
  find_all (build_filter window_query) (db (run sample_success))
  = [sample_settled] /\
  countDocuments (build_filter window_query) (db (run sample_success)) = 1 /\
  regular_cursor find_page /\
  exists txs pg,
    list_transactions_with find_page window_query (run sample_success)
    = Listed txs pg /\
    Permutation txs [sample_settled].
Proof.
  destruct (list_filter_conjunction window_query (run sample_success))
    as [_ H].
  destruct (H 1730505600000 1730505700000 eq_refl eq_refl)
    as (H1 & H2 & _ & H4).
  split; [exact H1 |]. split; [exact H2 |].
  split; [exact find_page_regular |].
  destruct (H4 find_page find_page_regular)
    as (sorted & txs & pg & _ & _ & Hl & _ & Hall).
  - split; [reflexivity | discriminate].
  - split; [reflexivity | discriminate].
  - discriminate.
  - exists txs, pg. split; [exact Hl |].
    apply Hall; [reflexivity | discriminate].
Defined.






(** * Further properties *)

(** ** Transaction identifiers *)

Lemma toUpperCase_app (s1 s2 : string) :
  toUpperCase (s1 ++ s2) = (toUpperCase s1 ++ toUpperCase s2)%string.
Proof. induction s1 as [| c s1 IH]; simpl; [reflexivity | now rewrite IH]. Qed.

Lemma toUpperCase_length (s : string) :
  String.length (toUpperCase s) = String.length s.
Proof. induction s as [| c s IH]; simpl; [reflexivity | now rewrite IH]. Qed.

Lemma string_forall_app (p : ascii -> bool) (s1 s2 : string) :
  string_forall p (s1 ++ s2) = string_forall p s1 && string_forall p s2.
Proof.
  induction s1 as [| c s1 IH]; simpl; [reflexivity |].
  now rewrite IH, andb_assoc.
Qed.

Lemma radix_value_from_app (b acc : Z) (s1 s2 : string) :
  radix_value_from b acc (s1 ++ s2)
  = radix_value_from b (radix_value_from b acc s1) s2.
Proof.
  revert acc. induction s1 as [| c s1 IH]; intros acc; simpl; [reflexivity |].
  apply IH.
Qed.

(** The 36 digits, in upper case. *)
Lemma upper_digit (d : Z) :
  0 <= d < 36 ->
  is_upper_alnum (upper_char (digit_char d)) = true /\
  digit_value (upper_char (digit_char d)) = d.
Proof.
  intros H.
  assert (C : exists n : nat, (n < 36)%nat /\ d = Z.of_nat n)
    by (exists (Z.to_nat d); lia).
  destruct C as (n & Hn & ->).
  do 36 (destruct n as [| n]; [split; reflexivity |]). lia.
Qed.

Lemma upper_radix_digits (b : Z) (f : nat) :
  2 <= b <= 36 -> forall n : Z,
  0 <= n < b ^ Z.of_nat f ->
  string_forall is_upper_alnum (toUpperCase (radix_digits f b n)) = true /\
  radix_value b (toUpperCase (radix_digits f b n)) = n.
Proof.
  intros Hb. unfold radix_value.
  induction f as [| f IH]; intros n Hn.
  - simpl in *. split; [reflexivity | lia].
  - rewrite Nat2Z.inj_succ, Z.pow_succ_r in Hn by lia.
    cbn [radix_digits].
    destruct (Z.ltb_spec n b) as [Hlt | Hge].
    + destruct (upper_digit n ltac:(lia)) as [Hd Hv].
      cbn [toUpperCase string_forall radix_value_from]. rewrite Hd, Hv.
      split; [reflexivity | lia].
    + destruct (IH (n / b)) as [IHd IHv].
      { split; [apply Z.div_pos; lia | apply Z.div_lt_upper_bound; lia]. }
      pose proof (Z.mod_pos_bound n b ltac:(lia)) as Hr.
      destruct (upper_digit (n mod b) ltac:(lia)) as [Hd Hv].
      rewrite toUpperCase_app, string_forall_app, radix_value_from_app.
      rewrite IHd, IHv.
      cbn [toUpperCase string_forall radix_value_from]. rewrite Hd, Hv.
      split; [reflexivity |].
      pose proof (Z.div_mod n b ltac:(lia)). lia.
Qed.

Lemma number_toString_fuel (b n : Z) :
  2 <= b -> 0 <= n -> n < b ^ Z.of_nat (S (Z.to_nat (Z.log2 n))).
Proof.
  intros Hb Hn.
  pose proof (Z.log2_nonneg n) as Hl.
  rewrite Nat2Z.inj_succ, Z2Nat.id by lia.
  destruct (Z.eq_dec n 0) as [-> | Hne].
  - apply Z.pow_pos_nonneg; simpl; lia.
  - destruct (Z.log2_spec n ltac:(lia)) as [_ Hlt].
    apply Z.lt_le_trans with (2 ^ Z.succ (Z.log2 n)); [assumption |].
    apply Z.pow_le_mono_l. lia.
Qed.

Lemma upper_number_toString (b n : Z) :
  2 <= b <= 36 -> 0 <= n ->
  string_forall is_upper_alnum (toUpperCase (number_toString b n)) = true /\
  radix_value b (toUpperCase (number_toString b n)) = n.
Proof.
  intros Hb Hn. unfold number_toString.
  apply upper_radix_digits; [assumption |].
  split; [assumption | apply number_toString_fuel; lia].
Qed.

Lemma upper_hex_byte (x : Z) :
  is_byte x ->
  String.length (toUpperCase (hex_byte x)) = 2%nat /\
  string_forall is_upper_alnum (toUpperCase (hex_byte x)) = true /\
  radix_value 16 (toUpperCase (hex_byte x)) = x.
Proof.
  unfold is_byte. intros Hx. unfold hex_byte, radix_value.
  assert (H1 : 0 <= x / 16 < 16)
    by (split; [apply Z.div_pos | apply Z.div_lt_upper_bound]; lia).
  pose proof (Z.mod_pos_bound x 16 ltac:(lia)) as H2.
  destruct (upper_digit (x / 16) ltac:(lia)) as [Hd1 Hv1].
  destruct (upper_digit (x mod 16) ltac:(lia)) as [Hd2 Hv2].
  cbn [toUpperCase string_forall radix_value_from String.length].
  rewrite Hd1, Hd2, Hv1, Hv2. repeat split.
  pose proof (Z.div_mod x 16 ltac:(lia)). lia.
Qed.

Lemma string_app_inj (s1 s2 t1 t2 : string) :
  (s1 ++ t1)%string = (s2 ++ t2)%string ->
  String.length t1 = String.length t2 ->
  s1 = s2 /\ t1 = t2.
Proof.
  revert s2. induction s1 as [| c s1 IH]; intros s2 E L.
  - destruct s2 as [| c2 s2]; [now split |].
    exfalso. apply (f_equal String.length) in E.
    cbn [append String.length] in E. rewrite string_length_app in E. lia.
  - destruct s2 as [| c2 s2].
    + exfalso. apply (f_equal String.length) in E.
      cbn [append String.length] in E. rewrite string_length_app in E. lia.
    + cbn [append] in E. injection E as -> E.
      destruct (IH s2 E L) as [-> ->]. now split.
Qed.

Lemma string_app_inv_head (s t1 t2 : string) :
  (s ++ t1)%string = (s ++ t2)%string -> t1 = t2.
Proof.
  induction s as [| c s IH]; cbn [append]; [trivial |].
  intros [= E]. now apply IH.
Qed.

Lemma generateTransactionId_parts (now b0 b1 : Z) :
  generateTransactionId now [b0; b1]
  = ("TXN" ++ toUpperCase (number_toString 36 now)
     ++ (toUpperCase (hex_byte b0) ++ toUpperCase (hex_byte b1)))%string.
Proof.
  unfold generateTransactionId. cbn [hex_bytes].
  rewrite toUpperCase_app.
  replace (hex_byte b1 ++ "")%string with (hex_byte b1); [reflexivity |].
  reflexivity.
Qed.

(** X1: an identifier made from a clock reading and two random bytes is
    the tag [TXN] followed by digits and upper case letters only, four of
    them for the bytes; for the clock readings from June 1972 to May 2059
    it has exactly fifteen characters. *)
Theorem generateTransactionId_shape (now b0 b1 : Z) :
  0 <= now -> is_byte b0 -> is_byte b1 ->
  let id := generateTransactionId now [b0; b1] in
  String.prefix "TXN" id = true /\
  string_forall is_upper_alnum id = true /\
  String.length id
  = (3 + String.length (number_toString 36 now) + 4)%nat /\
  (36 ^ 7 <= now < 36 ^ 8 -> String.length id = 15%nat).
Proof.
  intros Hn H0 H1 id. subst id. rewrite generateTransactionId_parts.
  destruct (upper_number_toString 36 now ltac:(lia) Hn) as [Hc _].
  destruct (upper_hex_byte b0 H0) as (L0 & C0 & _).
  destruct (upper_hex_byte b1 H1) as (L1 & C1 & _).
  assert (L : String.length
                ("TXN" ++ toUpperCase (number_toString 36 now)
                 ++ toUpperCase (hex_byte b0) ++ toUpperCase (hex_byte b1))
              = (3 + String.length (number_toString 36 now) + 4)%nat).
  { rewrite !string_length_app, toUpperCase_length, L0, L1.
    cbn [String.length]. lia. }
  split; [| split; [| split; [exact L |]]].
  - cbn [append].
    generalize (toUpperCase (number_toString 36 now)
                ++ toUpperCase (hex_byte b0)
                ++ toUpperCase (hex_byte b1))%string.
    intros r. cbn. now destruct r.
  - rewrite !string_forall_app, Hc, C0, C1. reflexivity.
  - intros Hrange. rewrite L. unfold number_toString.
    rewrite (radix_digits_length 36 7); [reflexivity | lia | |].
    + assert (36 <= Z.log2 now); [| lia].
      apply Z.log2_le_pow2; [lia |].
      change (2 ^ 36) with 68719476736.
      change (36 ^ 7) with 78364164096 in Hrange. lia.
    + exact Hrange.
Qed.

Lemma generateTransactionId_shape_sample :
  String.prefix "TXN" sample_id = true /\
  string_forall is_upper_alnum sample_id = true /\
  String.length sample_id = 15%nat.
Proof.
  destruct (generateTransactionId_shape 1730505600000 171 5)
    as (H1 & H2 & _ & H4).
  - lia.
  - unfold is_byte; lia.
  - unfold is_byte; lia.
  - split; [exact H1 |]. split; [exact H2 |].
    apply H4. split; [discriminate | reflexivity].
Defined.

(** X2: two identifiers are equal only if they were made from the same
    clock reading and the same two random bytes. *)
Theorem generateTransactionId_injective (now b0 b1 now' b0' b1' : Z) :
  0 <= now -> is_byte b0 -> is_byte b1 ->
  0 <= now' -> is_byte b0' -> is_byte b1' ->
  generateTransactionId now [b0; b1] = generateTransactionId now' [b0'; b1'] ->
  now = now' /\ b0 = b0' /\ b1 = b1'.
Proof.
  intros Hn H0 H1 Hn' H0' H1' E.
  rewrite !generateTransactionId_parts in E.
  apply string_app_inv_head in E.
  destruct (upper_hex_byte b0 H0) as (L0 & _ & V0).
  destruct (upper_hex_byte b1 H1) as (L1 & _ & V1).
  destruct (upper_hex_byte b0' H0') as (L0' & _ & V0').
  destruct (upper_hex_byte b1' H1') as (L1' & _ & V1').
  apply string_app_inj in E as [En Eh];
    [| rewrite !string_length_app; lia].
  apply string_app_inj in Eh as [E0 E1]; [| lia].
  destruct (upper_number_toString 36 now ltac:(lia) Hn) as [_ Vn].
  destruct (upper_number_toString 36 now' ltac:(lia) Hn') as [_ Vn'].
  split; [congruence |]. split; congruence.
Qed.

Lemma generateTransactionId_injective_sample :
  generateTransactionId 1730505600000 [171; 5]
  = generateTransactionId 1730505600000 [171; 5] /\
  (1730505600000 = 1730505600000 /\ 171 = 171 /\ 5 = 5).
Proof.
  split; [reflexivity |].
  apply (generateTransactionId_injective 1730505600000 171 5
           1730505600000 171 5);
    unfold is_byte; try lia; reflexivity.
Defined.

(** ** Creation and lookup *)

Lemma invalid_amount_false (q : Q) :
  invalid_amount (Some q) = false <-> (0 < q)%Q.
Proof.
  unfold invalid_amount, truthy_number. rewrite negb_involutive, orb_false_iff.
  split.
  - intros [_ H]. apply Qnot_le_lt. intros C.
    apply Qle_bool_iff in C. congruence.
  - intros H. split.
    + destruct (Qeq_bool q 0) eqn:E; [| reflexivity].
      apply Qeq_bool_iff in E. rewrite E in H. now apply Qlt_irrefl in H.
    + destruct (Qle_bool q 0) eqn:E; [| reflexivity].
      apply Qle_bool_iff in E. now apply Qlt_not_le in H.
Qed.

Lemma findOne_none (id : string) (c : collection) :
  findOne id c = None <-> existsb (has_id id) c = false.
Proof.
  unfold findOne. induction c as [| t r IH]; simpl; [tauto |].
  destruct (has_id id t); simpl; [split; discriminate | exact IH].
Qed.

Lemma findOne_not_stored (id : string) (c : collection) :
  findOne id c = None <-> ~ In id (map transactionId c).
Proof.
  split.
  - intros H Hin. destruct (findOne_stored id c Hin) as (t & Ht & _).
    congruence.
  - intros H. destruct (findOne id c) as [t |] eqn:E; [| reflexivity].
    exfalso. apply H. unfold findOne in E. apply find_some in E as [Hin Hid].
    apply has_id_true in Hid. subst id. now apply in_map.
Qed.

Lemma findOne_app_new (id : string) (c : collection) (t : Transaction) :
  findOne id c = None -> transactionId t = id ->
  findOne id (c ++ [t]) = Some t.
Proof.
  unfold findOne. intros Hn Hid.
  induction c as [| u r IH]; simpl in *.
  - apply has_id_true in Hid. now rewrite Hid.
  - destruct (has_id id u); [discriminate | now apply IH].
Qed.

Lemma findOne_app_old (id : string) (c c' : collection) (t : Transaction) :
  findOne id c = Some t -> findOne id (c ++ c') = Some t.
Proof.
  unfold findOne. induction c as [| u r IH]; simpl; [discriminate |].
  destruct (has_id id u); [trivial | exact IH].
Qed.

Lemma post_transaction_created (b : createBody) (q : Q) (now_id : Z)
    (rnd : list Z) (now_doc : Z) (s : server) :
  b_amount b = Some q -> (0 < q)%Q ->
  findOne (generateTransactionId now_id rnd) (db s) = None ->
  let id := generateTransactionId now_id rnd in
  post_transaction b now_id rnd now_doc s
  = (Created id,
     {| db := db s ++ [new_transaction id q b now_doc];
        timers := timers s ++ [id] |}).
Proof.
  intros Hb Hq Hfresh id. unfold post_transaction.
  rewrite Hb. apply invalid_amount_false in Hq. rewrite Hq.
  fold id. unfold save. cbn [transactionId new_transaction].
  apply findOne_none in Hfresh. fold id in Hfresh. now rewrite Hfresh.
Qed.

(** X3: a creation with a positive amount and an identifier that is not
    stored yet is answered with 201 and the identifier, appends one
    document, pending, without settlement reference and payment date,
    and arms one timer for it; looking the identifier up afterwards
    returns that document. *)
Theorem create_then_get (b : createBody) (q : Q) (now_id : Z)
    (rnd : list Z) (now_doc : Z) (s : server) :
  b_amount b = Some q -> (0 < q)%Q ->
  get_transaction (generateTransactionId now_id rnd) s = None ->
  let id := generateTransactionId now_id rnd in
  let r := post_transaction b now_id rnd now_doc s in
  exists t,
    fst r = Created id /\ create_code (fst r) = 201 /\
    db (snd r) = db s ++ [t] /\ timers (snd r) = timers s ++ [id] /\
    get_transaction id (snd r) = Some t /\
    transactionId t = id /\ amount t = q /\ date t = now_doc /\
    status t = pending /\ utrId t = None /\ paymentDate t = None.
Proof.
  intros Hb Hq Hfresh id r. unfold get_transaction in *.
  exists (new_transaction id q b now_doc). subst r.
  rewrite (post_transaction_created b q now_id rnd now_doc s Hb Hq Hfresh).
  cbn [fst snd db timers create_code]. fold id.
  repeat split.
  now apply findOne_app_new.
Qed.

Lemma create_then_get_sample :
  exists t,
    fst (post_transaction second_body 1730592000000 [0; 255] 1730592000002
           (run sample_success)) = Created second_id /\
    get_transaction second_id
      (snd (post_transaction second_body 1730592000000 [0; 255]
              1730592000002 (run sample_success))) = Some t /\
    status t = pending.
Proof.
  destruct (create_then_get second_body (25 # 2)%Q 1730592000000 [0; 255]
              1730592000002 (run sample_success))
    as (t & H1 & _ & _ & _ & H5 & _ & _ & _ & H9 & _).
  - reflexivity.
  - reflexivity.
  - vm_compute. reflexivity.
  - exists t. split; [exact H1 |]. split; [exact H5 | exact H9].
Defined.



Lemma NoDup_ids_findOne (c : collection) (t : Transaction) :
  NoDup (map transactionId c) -> In t c ->
  findOne (transactionId t) c = Some t.
Proof.
  unfold findOne. induction c as [| u r IH]; simpl; [tauto |].
  intros Hnd Hin. apply NoDup_cons_iff in Hnd as [Hnin Hnd].
  destruct Hin as [-> | Hin].
  - unfold has_id. now rewrite String.eqb_refl.
  - destruct (has_id (transactionId t) u) eqn:E; [| now apply IH].
    exfalso. apply Hnin. apply has_id_true in E. rewrite E.
    now apply in_map.
Qed.

(** X5: in every state the server reaches no two documents share an
    identifier, so looking up the identifier of a stored document
    returns that very document. *)
Theorem stored_ids_identify (es : list event) (t : Transaction) :
  In t (db (run es)) ->
  NoDup (map transactionId (db (run es))) /\
  get_transaction (transactionId t) (run es) = Some t.
Proof.
  intros Hin. destruct (run_consistent es) as [Hids _ _ _ _].
  split; [exact Hids | now apply NoDup_ids_findOne].
Qed.

Lemma stored_ids_identify_sample :
  In second_pending (db (run [sample_create; second_create])) /\
  get_transaction second_id (run [sample_create; second_create])
  = Some second_pending.
Proof.
  assert (H : In second_pending (db (run [sample_create; second_create])))
    by (vm_compute; right; left; reflexivity).
  split; [exact H |].
  exact (proj2 (stored_ids_identify [sample_create; second_create]
                  second_pending H)).
Defined.

(** X19: looking an identifier up answers 404 exactly when no stored
    document has it; otherwise the answer is a stored document with
    that identifier. *)
Theorem get_transaction_answers (id : string) (s : server) :
  (get_transaction id s = None <-> ~ In id (map transactionId (db s))) /\
  (forall t, get_transaction id s = Some t ->
             In t (db s) /\ transactionId t = id).
Proof.
  unfold get_transaction. split; [apply findOne_not_stored |].
  intros t H. unfold findOne in H. apply find_some in H as [Hin Hid].
  apply has_id_true in Hid. now split.
Qed.

(** ** The life of a document *)

Lemma run_app (es es' : list event) :
  run (es ++ es') = fold_left step es' (run es).
Proof. unfold run. apply fold_left_app. Qed.

Lemma steps_consistent (es : list event) (s : server) :
  consistent s -> consistent (fold_left step es s).
Proof.
  revert s. induction es as [| e es IH]; intros s Hs; simpl; [assumption |].
  apply IH. now apply step_consistent.
Qed.

Lemma post_transaction_db (b : createBody) (now_id : Z) (rnd : list Z)
    (now_doc : Z) (s : server) :
  snd (post_transaction b now_id rnd now_doc s) = s \/
  exists q,
    b_amount b = Some q /\ (0 < q)%Q /\
    snd (post_transaction b now_id rnd now_doc s)
    = {| db := db s ++ [new_transaction (generateTransactionId now_id rnd)
                          q b now_doc];
         timers := timers s ++ [generateTransactionId now_id rnd] |}.
Proof.
  unfold post_transaction.
  destruct (invalid_amount (b_amount b)) eqn:Ei; [now left |].
  destruct (b_amount b) as [q |]; [| now left].
  unfold save. destruct (existsb _ (db s)); [now left |].
  right. exists q. split; [reflexivity |]. split; [| reflexivity].
  unfold invalid_amount, truthy_number in Ei.
  rewrite negb_involutive in Ei. apply orb_false_iff in Ei as [_ Ei].
  apply Qnot_le_lt. intros C. apply Qle_bool_iff in C. congruence.
Qed.

Lemma update_keeps_others (id : string) (u : update) (c : collection)
    (t : Transaction) :
  In t c -> transactionId t <> id -> In t (findOneAndUpdate id u c).
Proof.
  induction c as [| h r IH]; simpl; [tauto |].
  intros [-> | Hin] Hne.
  - destruct (has_id id t) eqn:E; [| now left].
    apply has_id_true in E. contradiction.
  - destruct (has_id id h); [now right | right; now apply IH].
Qed.

Lemma step_keeps_settled (s : server) (e : event) (t : Transaction) :
  consistent s -> In t (db s) -> status t <> pending -> In t (db (step s e)).
Proof.
  intros Hc Hin Hst.
  destruct e as [b now_id rnd now_doc | id d1 d2 now | id |];
    [| | cbn [step]; unfold lose_timer;
         now destruct (armed id (timers s)) | assumption].
  - cbn [step].
    destruct (post_transaction_db b now_id rnd now_doc s)
      as [-> | (q & _ & _ & ->)]; [assumption |].
    cbn [db]. apply in_or_app. now left.
  - cbn [step]. unfold fire_timer.
    destruct (armed id (timers s)) eqn:Ha; [| assumption].
    cbn [db]. unfold resolve. apply update_keeps_others; [assumption |].
    intros E. apply Hst. apply (armed_pending s Hc t Hin).
    rewrite E. now apply armed_In.
Qed.

(** X6: a document that has left [pending] is never touched again:
    whatever the server does afterwards, it is stored unchanged. *)
Theorem settled_is_final (es es' : list event) (t : Transaction) :
  In t (db (run es)) -> status t <> pending ->
  In t (db (run (es ++ es'))).
Proof.
  intros Hin Hst. rewrite run_app.
  generalize (run_consistent es) Hin. generalize (run es).
  induction es' as [| e es' IH]; intros s Hc Hs; simpl; [assumption |].
  apply IH; [now apply step_consistent | now apply step_keeps_settled].
Qed.

Lemma settled_is_final_sample :
  In sample_failed (db (run sample_failure)) /\
  status sample_failed <> pending /\
  In sample_failed
    (db (run (sample_failure
              ++ [Resolve sample_id (grid_draw (2 ^ 52)) (grid_draw 5)
                    1730505609999;
                  second_create]))).
Proof.
  assert (H : In sample_failed (db (run sample_failure)))
    by (vm_compute; left; reflexivity).
  assert (H' : status sample_failed <> pending) by discriminate.
  split; [exact H |]. split; [exact H' |].
  exact (settled_is_final sample_failure _ sample_failed H H').
Defined.

Lemma same_frame_refl (c : collection) : Forall2 same_frame c c.
Proof. induction c; constructor; [repeat split | assumption]. Qed.

Lemma same_frame_trans (c1 c2 c3 : collection) :
  Forall2 same_frame c1 c2 -> Forall2 same_frame c2 c3 ->
  Forall2 same_frame c1 c3.
Proof.
  intros H. revert c3. induction H as [| a b l1 l2 Hab _ IH]; intros c3 H3.
  - inversion H3. constructor.
  - inversion H3 as [| b' c l2' l3 Hbc Hrest]; subst.
    constructor; [| now apply IH].
    unfold same_frame in *.
    destruct Hab as (A1 & A2 & A3 & A4 & A5).
    destruct Hbc as (B1 & B2 & B3 & B4 & B5).
    repeat split; congruence.
Qed.

Lemma continues_refl (c : collection) : continues c c.
Proof.
  exists c, []. split; [now rewrite app_nil_r | apply same_frame_refl].
Qed.

Lemma continues_trans (c1 c2 c3 : collection) :
  continues c1 c2 -> continues c2 c3 -> continues c1 c3.
Proof.
  intros (k1 & a1 & -> & F1) (k2 & a2 & -> & F2).
  apply Forall2_app_inv_l in F2 as (k2a & k2b & Fa & Fb & ->).
  exists k2a, (k2b ++ a2). split; [now rewrite app_assoc |].
  now apply same_frame_trans with k1.
Qed.

Lemma step_continues (s : server) (e : event) :
  continues (db s) (db (step s e)).
Proof.
  destruct e as [b now_id rnd now_doc | id d1 d2 now | id |]; cbn [step];
    [| | unfold lose_timer; destruct (armed id (timers s));
         apply continues_refl | apply continues_refl].
  - destruct (post_transaction_db b now_id rnd now_doc s)
      as [-> | (q & _ & _ & ->)]; [apply continues_refl |].
    cbn [db]. eexists _, _. split; [reflexivity | apply same_frame_refl].
  - unfold fire_timer.
    destruct (armed id (timers s)); [| apply continues_refl].
    cbn [db]. unfold resolve. eexists _, [].
    split; [now rewrite app_nil_r |].
    eapply Forall2_impl; [| apply update_frame].
    intros t t' [H _]. exact H.
Qed.

(** X7: the collection only grows, and a stored document keeps its place
    and its identifier, amount, description, payee address and creation
    date for good: after any further events the collection consists of
    the earlier documents, in place and with these fields unchanged,
    followed by the documents created since. *)
Theorem history_is_kept (es es' : list event) :
  continues (db (run es)) (db (run (es ++ es'))).
Proof.
  rewrite run_app. generalize (run es).
  induction es' as [| e es' IH]; intros s; simpl; [apply continues_refl |].
  eapply continues_trans; [apply step_continues | apply IH].
Qed.

Lemma disarm_keeps (id x : string) (ts : list string) :
  In x ts -> x <> id -> In x (disarm id ts).
Proof.
  induction ts as [| t r IH]; simpl; [tauto |].
  intros [-> | Hin] Hne.
  - destruct (String.eqb_spec x id); [contradiction | now left].
  - destruct (String.eqb_spec t id); [assumption | right; now apply IH].
Qed.

Lemma update_In_id (id : string) (u : update) (c : collection)
    (t' : Transaction) :
  NoDup (map transactionId c) ->
  In t' (findOneAndUpdate id u c) -> transactionId t' = id ->
  exists t, In t c /\ transactionId t = id /\ t' = apply_update u t.
Proof.
  induction c as [| h r IH]; simpl; [tauto |].
  intros Hnd Hin Hid. apply NoDup_cons_iff in Hnd as [Hnin Hnd].
  destruct (has_id id h) eqn:E.
  - apply has_id_true in E. destruct Hin as [<- | Hin].
    + exists h. tauto.
    + exfalso. apply Hnin. rewrite E, <- Hid. now apply in_map.
  - destruct Hin as [<- | Hin].
    + apply has_id_true in Hid. congruence.
    + destruct (IH Hnd Hin Hid) as (t & H1 & H2 & H3). exists t. tauto.
Qed.

Lemma resolve_update_settles (d1 d2 : double01) (now : Z) (t : Transaction) :
  status (apply_update (resolve_update d1 d2 now) t) <> pending.
Proof.
  unfold resolve_update. destruct (gt_tenth d1); cbn; discriminate.
Qed.

Lemma step_pending_armed (s : server) (e : event) :
  undisturbed e -> consistent s -> pending_armed s ->
  pending_armed (step s e).
Proof.
  intros Hu Hc Hp.
  destruct e as [b now_id rnd now_doc | id d1 d2 now | id |];
    cbn [step]; try destruct Hu.
  - destruct (post_transaction_db b now_id rnd now_doc s)
      as [-> | (q & _ & _ & ->)]; [assumption |].
    intros t Hin Hst. cbn [db timers] in *.
    apply in_or_app. apply in_app_iff in Hin as [Hin | [<- | []]].
    + left. now apply Hp.
    + right. now left.
  - unfold fire_timer.
    destruct (armed id (timers s)) eqn:Ha; [| assumption].
    intros t' Hin Hst. cbn [db timers] in *. unfold resolve in Hin.
    destruct (String.eqb_spec (transactionId t') id) as [E | Hne].
    + exfalso.
      destruct (update_In_id id _ _ t' (ids_nodup s Hc) Hin E)
        as (t & _ & _ & ->).
      now apply resolve_update_settles in Hst.
    + apply disarm_keeps; [| assumption].
      apply update_In in Hin as [Hin | (t & _ & Hid & ->)].
      * now apply Hp.
      * cbn [transactionId apply_update] in Hne. contradiction.
Qed.

Lemma run_pending_armed (es : list event) :
  Forall undisturbed es -> pending_armed (run es).
Proof.
  unfold run.
  assert (H : consistent boot /\ pending_armed boot)
    by (split; [apply boot_consistent | intros t []]).
  revert H. generalize boot.
  induction es as [| e es IH]; intros s [Hc Hp] Hu; simpl; [assumption |].
  apply Forall_cons_iff in Hu as [He Hu].
  apply IH; [| assumption].
  split; [now apply step_consistent | now apply step_pending_armed].
Qed.

Lemma pending_count (c : collection) :
  countDocuments (status_filter pending) c
  = Z.of_nat (List.length
                (List.filter (fun t => txStatus_eqb (status t) pending) c)).
Proof.
  unfold countDocuments, find_all. do 2 f_equal.
  apply filter_ext. intros t. unfold matches, status_filter.
  cbn [f_status f_date]. rewrite andb_true_r. now destruct (status t).
Qed.

Lemma NoDup_map_filter (p : Transaction -> bool) (c : collection) :
  NoDup (map transactionId c) ->
  NoDup (map transactionId (List.filter p c)).
Proof.
  induction c as [| t r IH]; simpl; [trivial |].
  intros Hnd. apply NoDup_cons_iff in Hnd as [Hnin Hnd].
  destruct (p t); [| now apply IH].
  simpl. constructor; [| now apply IH].
  intros Hin. apply Hnin. apply in_map_iff in Hin as (u & Hu & Hin).
  apply filter_In in Hin as [Hin _]. rewrite <- Hu. now apply in_map.
Qed.

Lemma armed_are_pending_ids (s : server) :
  consistent s ->
  incl (timers s)
    (map transactionId
       (List.filter (fun t => txStatus_eqb (status t) pending) (db s))).
Proof.
  intros Hc id H.
  destruct (findOne_stored id _ (timers_stored _ Hc id H))
    as (u & _ & Hu & Hid).
  apply in_map_iff. exists u. split; [assumption |].
  apply filter_In. split; [assumption |].
  rewrite (armed_pending _ Hc u Hu); [reflexivity | congruence].
Qed.

(** X8: in every state the server reaches, also after rejected writes
    and restarts, a document with an armed timer is pending, and there
    are at most as many armed timers as the statistics count pending
    transactions.  As long as no write is rejected and the process is
    not restarted, a document is pending exactly when a timer is armed
    for its identifier, and the pending count is the number of armed
    timers. *)
Theorem pending_iff_armed (es : list event) (t : Transaction) :
  In t (db (run es)) ->
  (In (transactionId t) (timers (run es)) -> status t = pending) /\
  Z.of_nat (List.length (timers (run es)))
  <= pendingTransactions (get_stats (run es)) /\
  (Forall undisturbed es ->
   (status t = pending <-> In (transactionId t) (timers (run es))) /\
   pendingTransactions (get_stats (run es))
   = Z.of_nat (List.length (timers (run es)))).
Proof.
  intros Hin. pose proof (run_consistent es) as Hc.
  pose proof (armed_are_pending_ids _ Hc) as Hincl.
  assert (Hcount : pendingTransactions (get_stats (run es))
                   = Z.of_nat (List.length
                       (map transactionId
                          (List.filter
                             (fun t => txStatus_eqb (status t) pending)
                             (db (run es)))))).
  { unfold get_stats. cbn [pendingTransactions].
    now rewrite pending_count, length_map. }
  split; [now apply (armed_pending _ Hc) |]. split.
  - rewrite Hcount. apply inj_le.
    apply NoDup_incl_length; [apply (timers_nodup _ Hc) | exact Hincl].
  - intros Hu. pose proof (run_pending_armed es Hu) as Hp.
    split; [split; [now apply Hp | now apply (armed_pending _ Hc)] |].
    rewrite Hcount. f_equal.
    apply Permutation_length, NoDup_Permutation.
    + apply NoDup_map_filter, (ids_nodup _ Hc).
    + apply (timers_nodup _ Hc).
    + intros id. split; [| apply Hincl].
      intros H. apply in_map_iff in H as (u & <- & Hu').
      apply filter_In in Hu' as [Hu' Hs]. apply Hp; [assumption |].
      now destruct (status u).
Qed.

Lemma pending_iff_armed_sample :
  In second_pending (db (run [sample_create; second_create])) /\
  Forall undisturbed [sample_create; second_create] /\
  (status second_pending = pending <->
   In (transactionId second_pending)
      (timers (run [sample_create; second_create]))) /\
  pendingTransactions (get_stats (run [sample_create; second_create]))
  = Z.of_nat (List.length (timers (run [sample_create; second_create]))).
Proof.
  assert (H : In second_pending (db (run [sample_create; second_create])))
    by (vm_compute; right; left; reflexivity).
  assert (U : Forall undisturbed [sample_create; second_create])
    by (repeat constructor).
  split; [exact H |]. split; [exact U |].
  exact (proj2 (proj2 (pending_iff_armed [sample_create; second_create]
                         second_pending H)) U).
Defined.

(** ** Statistics along a run *)

Lemma matches_status_filter (st : txStatus) (t : Transaction) :
  matches (status_filter st) t = txStatus_eqb (status t) st.
Proof.
  unfold matches, status_filter. cbn [f_status f_date].
  rewrite andb_true_r. destruct (status t), st; reflexivity.
Qed.

Lemma countDocuments_app (f : filter) (c : collection) (t : Transaction) :
  countDocuments f (c ++ [t]) = countDocuments f c + hit f t.
Proof.
  unfold countDocuments, find_all, hit. rewrite filter_app, length_app.
  cbn [List.filter]. destruct (matches f t); cbn [List.length]; lia.
Qed.

Lemma countDocuments_update (f : filter) (id : string) (u : update)
    (c : collection) (t : Transaction) :
  findOne id c = Some t ->
  countDocuments f (findOneAndUpdate id u c)
  = countDocuments f c - hit f t + hit f (apply_update u t).
Proof.
  unfold countDocuments, find_all, findOne, hit.
  induction c as [| h r IH]; cbn [find findOneAndUpdate]; [discriminate |].
  destruct (has_id id h).
  - intros [= ->]. cbn [List.filter].
    destruct (matches f t), (matches f (apply_update u t));
      cbn [List.length]; lia.
  - intros H. specialize (IH H). cbn [List.filter].
    destruct (matches f h); cbn [List.length]; lia.
Qed.

(** X9: a creation answered with 201 raises the total count and the
    pending count of the statistics by one and leaves the counts of
    successful and failed transactions as they were. *)
Theorem stats_after_create (b : createBody) (now_id : Z) (rnd : list Z)
    (now_doc : Z) (s : server) (id : string) :
  fst (post_transaction b now_id rnd now_doc s) = Created id ->
  let s' := snd (post_transaction b now_id rnd now_doc s) in
  totalTransactions (get_stats s') = totalTransactions (get_stats s) + 1 /\
  pendingTransactions (get_stats s') = pendingTransactions (get_stats s) + 1 /\
  successfulTransactions (get_stats s')
  = successfulTransactions (get_stats s) /\
  failedTransactions (get_stats s') = failedTransactions (get_stats s).
Proof.
  intros H s'. subst s'.
  destruct (post_transaction_db b now_id rnd now_doc s)
    as [E | (q & _ & _ & E)].
  - exfalso. revert H. unfold post_transaction.
    unfold post_transaction in E.
    destruct (invalid_amount (b_amount b)); [discriminate |].
    destruct (b_amount b) as [q |]; [| discriminate].
    destruct (save _ (db s)) as [c |] eqn:Es; [| discriminate].
    apply save_spec in Es as [-> _]. cbn [snd] in E. intros _.
    apply (f_equal (fun x => List.length (db x))) in E. cbn [db] in E.
    rewrite length_app in E. cbn [List.length] in E. lia.
  - rewrite E. unfold get_stats.
    cbn [db totalTransactions pendingTransactions successfulTransactions
         failedTransactions].
    rewrite !countDocuments_app. unfold hit.
    rewrite !matches_status_filter. cbn. lia.
Qed.

Lemma stats_after_create_sample :
  fst (post_transaction second_body 1730592000000 [0; 255] 1730592000002
         (run sample_success)) = Created second_id /\
  pendingTransactions
    (get_stats (snd (post_transaction second_body 1730592000000 [0; 255]
                       1730592000002 (run sample_success))))
  = pendingTransactions (get_stats (run sample_success)) + 1.
Proof.
  assert (H : fst (post_transaction second_body 1730592000000 [0; 255]
                     1730592000002 (run sample_success)) = Created second_id)
    by (vm_compute; reflexivity).
  split; [exact H |].
  exact (proj1 (proj2 (stats_after_create _ _ _ _ _ _ H))).
Defined.

(** X10: when an armed timer fires in a state the server reaches, the
    total count stays, the pending count drops by one, and the count of
    successful transactions, for a draw above 0.1, or else that of
    failed ones rises by one. *)
Theorem stats_after_timer (es : list event) (id : string)
    (success_draw utr_draw : double01) (now : Z) :
  armed id (timers (run es)) = true ->
  let s := run es in
  let s' := fire_timer id success_draw utr_draw now s in
  totalTransactions (get_stats s') = totalTransactions (get_stats s) /\
  pendingTransactions (get_stats s') = pendingTransactions (get_stats s) - 1 /\
  if gt_tenth success_draw then
    successfulTransactions (get_stats s')
    = successfulTransactions (get_stats s) + 1 /\
    failedTransactions (get_stats s') = failedTransactions (get_stats s)
  else
    successfulTransactions (get_stats s')
    = successfulTransactions (get_stats s) /\
    failedTransactions (get_stats s') = failedTransactions (get_stats s) + 1.
Proof.
  intros Ha s s'. subst s s'.
  pose proof (run_consistent es) as Hc.
  pose proof Ha as Hin. apply armed_In in Hin.
  destruct (findOne_stored id _ (timers_stored _ Hc id Hin))
    as (t & Hf & Ht & Hid).
  assert (Hp : status t = pending)
    by (apply (armed_pending _ Hc); [assumption | congruence]).
  unfold fire_timer. rewrite Ha. unfold get_stats, resolve.
  cbn [db totalTransactions pendingTransactions successfulTransactions
       failedTransactions].
  rewrite !(countDocuments_update _ id _ _ t Hf). unfold hit.
  rewrite !matches_status_filter.
  change (matches no_filter t) with true.
  change (matches no_filter (apply_update _ t)) with true.
  unfold resolve_update. rewrite Hp.
  destruct (gt_tenth success_draw); cbn; lia.
Qed.

Lemma stats_after_timer_sample :
  armed sample_id (timers (run [sample_create])) = true /\
  pendingTransactions
    (get_stats (fire_timer sample_id (grid_draw 0) (grid_draw 5)
                  1730505603001 (run [sample_create])))
  = pendingTransactions (get_stats (run [sample_create])) - 1.
Proof.
  split; [reflexivity |].
  exact (proj1 (proj2 (stats_after_timer [sample_create] sample_id
                         (grid_draw 0) (grid_draw 5) 1730505603001
                         eq_refl))).
Defined.

(** ** Stored documents *)

Lemma or_default_nonempty (o : option string) (fallback : string) :
  fallback <> EmptyString -> or_default o fallback <> EmptyString.
Proof.
  intros H. unfold or_default. destruct o as [[| c r] |];
    try assumption; discriminate.
Qed.

Lemma prefix_TXN (now : Z) (rnd : list Z) :
  String.prefix "TXN" (generateTransactionId now rnd) = true.
Proof.
  unfold generateTransactionId. cbn [append].
  generalize (toUpperCase (number_toString 36 now)
              ++ toUpperCase (hex_bytes rnd))%string.
  intros r. cbn. now destruct r.
Qed.

Lemma step_valid (s : server) (e : event) :
  Forall valid_document (db s) -> Forall valid_document (db (step s e)).
Proof.
  intros H.
  destruct e as [b now_id rnd now_doc | id d1 d2 now | id |]; cbn [step];
    [| | unfold lose_timer; now destruct (armed id (timers s))
     | assumption].
  - destruct (post_transaction_db b now_id rnd now_doc s)
      as [-> | (q & _ & Hq & ->)]; [assumption |].
    cbn [db]. apply Forall_app. split; [assumption |].
    constructor; [| constructor].
    unfold valid_document. cbn [new_transaction amount description upiId
                                transactionId].
    split; [exact Hq |]. split; [| split].
    + apply or_default_nonempty. discriminate.
    + apply or_default_nonempty. discriminate.
    + apply prefix_TXN.
  - unfold fire_timer. destruct (armed id (timers s)); [| assumption].
    cbn [db]. unfold resolve. apply Forall_forall. intros t' Hin.
    rewrite Forall_forall in H.
    apply update_In in Hin as [Hin | (t & Hin & _ & ->)]; [now apply H |].
    exact (H t Hin).
Qed.

(** X11: every document the server ever stores has a strictly positive
    amount, a non empty description, a non empty payee address and an
    identifier that starts with [TXN]. *)
Theorem stored_documents_are_valid (es : list event) (t : Transaction) :
  In t (db (run es)) -> valid_document t.
Proof.
  assert (H : Forall valid_document (db (run es))).
  { unfold run. assert (H0 : Forall valid_document (db boot)) by constructor.
    revert H0. generalize boot.
    induction es as [| e es IH]; intros s Hs; simpl; [assumption |].
    apply IH. now apply step_valid. }
  rewrite Forall_forall in H. apply H.
Qed.

Lemma stored_documents_are_valid_sample :
  In second_pending (db (run [sample_create; second_create])) /\
  valid_document second_pending.
Proof.
  assert (H : In second_pending (db (run [sample_create; second_create])))
    by (vm_compute; right; left; reflexivity).
  split; [exact H |].
  exact (stored_documents_are_valid [sample_create; second_create]
           second_pending H).
Defined.



(** ** Paging and filtering *)

Lemma firstn_add (A : Type) (a b : nat) (l : list A) :
  firstn (a + b) l = firstn a l ++ firstn b (skipn a l).
Proof.
  revert l. induction a as [| a IH]; intros l; [reflexivity |].
  destruct l as [| x l]; cbn [Nat.add firstn skipn app].
  - now rewrite firstn_nil.
  - now rewrite IH.
Qed.

Lemma same_date_same_document (l : collection) (x y : Transaction) :
  NoDup (map date l) -> In x l -> In y l -> date x = date y -> x = y.
Proof.
  induction l as [| h r IH]; simpl; [tauto |].
  intros Hnd Hx Hy E. apply NoDup_cons_iff in Hnd as [Hnin Hnd].
  destruct Hx as [-> | Hx], Hy as [-> | Hy]; auto.
  - exfalso. apply Hnin. rewrite E. now apply in_map.
  - exfalso. apply Hnin. rewrite <- E. now apply in_map.
Qed.

Lemma newest_first_unique (l1 l2 : collection) :
  Permutation l1 l2 -> NoDup (map date l1) ->
  StronglySorted newer_or_equal l1 -> StronglySorted newer_or_equal l2 ->
  l1 = l2.
Proof.
  revert l2. induction l1 as [| a r IH]; intros l2 P Hnd S1 S2.
  - apply Permutation_nil in P. now subst.
  - destruct l2 as [| b r2];
      [apply Permutation_sym, Permutation_nil in P; discriminate |].
    inversion S1 as [| ? ? S1r F1]; subst.
    inversion S2 as [| ? ? S2r F2]; subst.
    rewrite Forall_forall in F1, F2.
    assert (Hb : In b (a :: r))
      by (apply (Permutation_in _ (Permutation_sym P)); now left).
    assert (Ha : In a (b :: r2)) by (apply (Permutation_in _ P); now left).
    assert (E : a = b).
    { apply (same_date_same_document (a :: r)); [assumption | now left
                                                | assumption |].
      unfold newer_or_equal in F1, F2.
      destruct Hb as [<- | Hb]; [reflexivity |].
      destruct Ha as [-> | Ha]; [reflexivity |].
      specialize (F1 b Hb). specialize (F2 a Ha). lia. }
    subst b. f_equal. apply Permutation_cons_inv in P.
    apply IH; try assumption.
    cbn [map] in Hnd. now apply NoDup_cons_iff in Hnd as [_ Hnd].
Qed.

Lemma list_with_page (find : cursor) (q : listQuery) (s : server) (p : nat) :
  regular_cursor find ->
  0 < limit_of q -> (1 <= p)%nat ->
  Z.of_nat p * limit_of q <= safe_bound ->
  NoDup (map date (find_all (build_filter q) (db s))) ->
  records (list_transactions_with find (with_page (Z.of_nat p) q) s)
  = firstn (Z.to_nat (limit_of q))
      (skipn ((p - 1) * Z.to_nat (limit_of q))
         (sort_date_desc (find_all (build_filter q) (db s)))).
Proof.
  intros Hreg Hl Hp Hsafe Hnd.
  destruct (list_with_regular find (with_page (Z.of_nat p) q) s Hreg)
    as (sorted & [Hperm Hsorted] & E).
  - unfold skip_of.
    change (limit_of (with_page (Z.of_nat p) q)) with (limit_of q).
    change (page_of (with_page (Z.of_nat p) q)) with (Z.of_nat p). nia.
  - change (limit_of (with_page (Z.of_nat p) q)) with (limit_of q). nia.
  - rewrite E. cbn [records].
    change (build_filter (with_page (Z.of_nat p) q)) with (build_filter q)
      in Hperm.
    change (limit_of (with_page (Z.of_nat p) q)) with (limit_of q).
    unfold skip_of.
    change (limit_of (with_page (Z.of_nat p) q)) with (limit_of q).
    change (page_of (with_page (Z.of_nat p) q)) with (Z.of_nat p).
    assert (Es : sorted = sort_date_desc (find_all (build_filter q) (db s))).
    { apply newest_first_unique; [| | assumption | apply sort_date_desc_sorted].
      - rewrite Hperm. symmetry. apply sort_date_desc_perm.
      - apply (Permutation_NoDup (l := map date
                                         (find_all (build_filter q) (db s))));
          [| assumption].
        apply Permutation_map. now symmetry. }
    rewrite Es. do 2 f_equal. nia.
Qed.

(** X12: when the matching documents have pairwise distinct creation
    dates, and for a positive limit with [n * limit] in the safe range,
    the pages 1 to [n] of a listing, one after the other, are the first
    [n * limit] matching documents, newest first, whatever the store
    does with equal dates: no document is skipped or repeated between
    pages, and once [n * limit] reaches the number of matching documents
    the pages hold all of them. *)
Theorem pages_cover_listing (find : cursor) (q : listQuery) (s : server)
    (n : nat) :
  regular_cursor find ->
  0 < limit_of q -> Z.of_nat n * limit_of q <= safe_bound ->
  NoDup (map date (find_all (build_filter q) (db s))) ->
  let sorted := sort_date_desc (find_all (build_filter q) (db s)) in
  let pages_upto :=
    flat_map
      (fun p =>
         records (list_transactions_with find (with_page (Z.of_nat p) q) s))
      (seq 1 n) in
  pages_upto = firstn (n * Z.to_nat (limit_of q)) sorted /\
  ((List.length sorted <= n * Z.to_nat (limit_of q))%nat ->
   pages_upto = sorted).
Proof.
  intros Hreg Hl Hsafe Hnd sorted pages_upto.
  assert (E : pages_upto = firstn (n * Z.to_nat (limit_of q)) sorted).
  { subst pages_upto. induction n as [| n IH]; [reflexivity |].
    rewrite seq_S, flat_map_app, IH by nia. cbn [flat_map].
    rewrite app_nil_r, (list_with_page find q s (1 + n)); try assumption;
      try lia.
    fold sorted. replace (1 + n - 1)%nat with n by lia.
    replace (S n * Z.to_nat (limit_of q))%nat
      with (n * Z.to_nat (limit_of q) + Z.to_nat (limit_of q))%nat by lia.
    now rewrite firstn_add. }
  split; [exact E |].
  intros Hlen. rewrite E. now apply firstn_all2.
Qed.

Lemma pages_cover_listing_sample :
  regular_cursor find_page /\
  NoDup (map date (find_all (build_filter all_query)
                     (db (run [sample_create; second_create])))) /\
  flat_map
    (fun p =>
       records (list_transactions_with find_page
                  (with_page (Z.of_nat p) all_query)
                  (run [sample_create; second_create])))
    (seq 1 2)
  = sort_date_desc (db (run [sample_create; second_create])).
Proof.
  assert (D : NoDup (map date (find_all (build_filter all_query)
                                 (db (run [sample_create; second_create])))))
    by (vm_compute; repeat constructor; simpl; intuition discriminate).
  split; [exact find_page_regular |]. split; [exact D |].
  destruct (pages_cover_listing find_page all_query
              (run [sample_create; second_create]) 2 find_page_regular)
    as [_ H].
  - reflexivity.
  - discriminate.
  - exact D.
  - apply H. vm_compute. lia.
Defined.

Lemma list_transactions_pages (q : listQuery) (s : server)
    (txs : collection) (pg : pagination) :
  list_transactions q s = Listed txs pg ->
  pages pg = ceil_quotient (total pg) (limit_of q).
Proof.
  unfold list_transactions, list_transactions_with.
  destruct (find_page _ _ _ _); [| discriminate].
  intros [= <- <-]. reflexivity.
Qed.

Lemma build_filter_status_only (q : listQuery) (st : txStatus) :
  q_status q = Some (status_string st) ->
  q_startDate q = None -> q_endDate q = None ->
  build_filter q = status_filter st.
Proof.
  intros Hs Hlo Hhi. unfold build_filter. rewrite Hs, Hlo, Hhi.
  now destruct st.
Qed.

Lemma build_filter_none (q : listQuery) :
  q_status q = None \/ q_status q = Some "all"%string ->
  q_startDate q = None -> q_endDate q = None ->
  build_filter q = no_filter.
Proof.
  intros [Hs | Hs] Hlo Hhi; unfold build_filter; now rewrite Hs, Hlo, Hhi.
Qed.

(** X13: without date bounds, the total a listing reports for the status
    ['success'], ['pending'] or ['failed'] is the count the statistics
    give for that status, and the total without a status, or with
    ['all'], is the statistics' total count. *)
Theorem list_total_agrees_with_stats (q : listQuery) (s : server)
    (txs : collection) (pg : pagination) :
  list_transactions q s = Listed txs pg ->
  q_startDate q = None -> q_endDate q = None ->
  (q_status q = Some "success"%string ->
   total pg = successfulTransactions (get_stats s)) /\
  (q_status q = Some "pending"%string ->
   total pg = pendingTransactions (get_stats s)) /\
  (q_status q = Some "failed"%string ->
   total pg = failedTransactions (get_stats s)) /\
  (q_status q = None \/ q_status q = Some "all"%string ->
   total pg = totalTransactions (get_stats s)).
Proof.
  intros H Hlo Hhi. apply list_transactions_listed in H as (_ & Ht & _).
  rewrite Ht. unfold get_stats. cbn.
  repeat split; intros Hs.
  - now rewrite (build_filter_status_only q success).
  - now rewrite (build_filter_status_only q pending).
  - now rewrite (build_filter_status_only q failed).
  - now rewrite build_filter_none.
Qed.

Lemma list_total_agrees_with_stats_sample :
  list_transactions all_listed_query (run sample_success)
  = Listed [sample_settled]
      {| total := 1; page := 1; limit := 10; pages := Fin 1 |} /\
  total {| total := 1; page := 1; limit := 10; pages := Fin 1 |}
  = totalTransactions (get_stats (run sample_success)).
Proof.
  assert (H : list_transactions all_listed_query (run sample_success)
              = Listed [sample_settled]
                  {| total := 1; page := 1; limit := 10; pages := Fin 1 |})
    by (vm_compute; reflexivity).
  split; [exact H |].
  destruct (list_total_agrees_with_stats all_listed_query
              (run sample_success) _ _ H eq_refl eq_refl)
    as (_ & _ & _ & H4).
  apply H4. now left.
Defined.

Lemma find_all_nothing (f : filter) (c : collection) :
  (forall t, matches f t = false) -> find_all f c = [].
Proof.
  intros H. unfold find_all. induction c as [| t r IH]; [reflexivity |].
  cbn [List.filter]. now rewrite H.
Qed.

(** X14: a listing does not reject a status that is none of the three
    statuses, nor a start date after the end date: it answers with no
    documents, a total of zero and, for a positive limit, zero pages. *)
Theorem unmatched_filter_lists_nothing (q : listQuery) (s : server)
    (txs : collection) (pg : pagination) :
  list_transactions q s = Listed txs pg ->
  (exists st, q_status q = Some st /\ st <> EmptyString /\
              st <> "all"%string /\ st <> "pending"%string /\
              st <> "success"%string /\ st <> "failed"%string) \/
  (exists lo hi, q_startDate q = Some lo /\ q_endDate q = Some hi /\
                 hi < lo) ->
  txs = [] /\ total pg = 0 /\ (0 < limit_of q -> pages pg = Fin 0).
Proof.
  intros H Hodd. pose proof (list_transactions_pages q s txs pg H) as Hp.
  apply list_transactions_listed in H as (Hi & Ht & _).
  assert (E : find_all (build_filter q) (db s) = []).
  { apply find_all_nothing. intros t. rewrite matches_build_filter.
    destruct Hodd as [(st & Hs & Hne & Hall & H1 & H2 & H3)
                     | (lo & hi & Hlo & Hhi & Hlt)].
    - assert (Hw : status_wanted q t = false); [| now rewrite Hw].
      destruct (status_wanted q t) eqn:E; [| reflexivity].
      exfalso. apply status_wanted_spec with (st := st) in E; try assumption.
      destruct (status t); cbn in E; congruence.
    - rewrite Hlo, Hhi.
      destruct (Z.leb_spec lo (date t)), (Z.leb_spec (date t) hi);
        rewrite ?andb_false_r; try reflexivity. lia. }
  unfold countDocuments in Ht. rewrite E in Hi, Ht. cbn in Ht.
  split; [| split; [exact Ht |]].
  - destruct txs as [| t r]; [reflexivity |].
    destruct (Hi t (or_introl eq_refl)).
  - intros Hl. rewrite Hp, Ht.
    rewrite ceil_quotient_exact;
      [reflexivity | split; [lia | reflexivity] | exact Hl].
Qed.

Lemma unmatched_filter_lists_nothing_sample :
  list_transactions unknown_status_query (run sample_success)
  = Listed [] {| total := 0; page := 1; limit := 10; pages := Fin 0 |} /\
  (@nil Transaction = [] /\
   total {| total := 0; page := 1; limit := 10; pages := Fin 0 |} = 0 /\
   (0 < limit_of unknown_status_query ->
    pages {| total := 0; page := 1; limit := 10; pages := Fin 0 |} = Fin 0)).
Proof.
  assert (H : list_transactions unknown_status_query (run sample_success)
              = Listed []
                  {| total := 0; page := 1; limit := 10; pages := Fin 0 |})
    by (vm_compute; reflexivity).
  split; [exact H |].
  apply (unmatched_filter_lists_nothing _ _ _ _ H).
  left. exists "refunded"%string. repeat split; discriminate.
Defined.

Lemma filter_all (c : collection) :
  List.filter (matches no_filter) c = c.
Proof.
  induction c as [| t r IH]; [reflexivity |].
  cbn [List.filter]. change (matches no_filter t) with true. now rewrite IH.
Qed.

Lemma sort_newest_last (c acc : collection) (t : Transaction) :
  (forall u, In u c -> date u < date t) ->
  fold_right insert_desc (t :: acc) c = t :: fold_right insert_desc acc c.
Proof.
  induction c as [| h r IH]; intros H; [reflexivity |].
  cbn [fold_right]. rewrite IH by (intros u Hu; apply H; now right).
  cbn [insert_desc].
  destruct (Z.leb_spec (date t) (date h)) as [Hle | _]; [| reflexivity].
  specialize (H h (or_introl eq_refl)). lia.
Qed.

Lemma post_transaction_created_inv (b : createBody) (now_id : Z)
    (rnd : list Z) (now_doc : Z) (s : server) (id : string) :
  fst (post_transaction b now_id rnd now_doc s) = Created id ->
  exists q,
    id = generateTransactionId now_id rnd /\
    snd (post_transaction b now_id rnd now_doc s)
    = {| db := db s ++ [new_transaction id q b now_doc];
         timers := timers s ++ [id] |}.
Proof.
  unfold post_transaction.
  destruct (invalid_amount (b_amount b)); [discriminate |].
  destruct (b_amount b) as [q |]; [| discriminate].
  destruct (save _ (db s)) as [c |] eqn:Es; [| discriminate].
  apply save_spec in Es as [-> _]. cbn [fst snd]. intros [= <-].
  exists q. split; reflexivity.
Qed.

(** X15: when a creation is answered with 201 and its creation date is
    later than that of every stored document, the first page of the
    unfiltered listing, for any positive limit, starts with the new
    document, which is pending. *)
Theorem created_is_listed_first (b : createBody) (now_id : Z)
    (rnd : list Z) (now_doc : Z) (s : server) (id : string)
    (q : listQuery) :
  fst (post_transaction b now_id rnd now_doc s) = Created id ->
  (forall u, In u (db s) -> date u < now_doc) ->
  q_status q = None -> q_startDate q = None -> q_endDate q = None ->
  page_of q = 1 -> 0 < limit_of q ->
  exists t rest pg,
    list_transactions q (snd (post_transaction b now_id rnd now_doc s))
    = Listed (t :: rest) pg /\
    transactionId t = id /\ status t = pending /\ date t = now_doc.
Proof.
  intros Hc Hnew Hs Hlo Hhi Hp Hl.
  destruct (post_transaction_created_inv _ _ _ _ _ _ Hc) as (a & _ & ->).
  unfold list_transactions, list_transactions_with, find_page, skip_of.
  rewrite Hp.
  rewrite build_filter_none by auto. cbn [db Z.sub Z.mul Z.ltb Z.compare].
  unfold find_all. rewrite filter_all. unfold sort_date_desc.
  rewrite fold_right_app. cbn [fold_right insert_desc].
  rewrite sort_newest_last by exact Hnew.
  unfold cursor_limit. destruct (Z.eqb_spec (limit_of q) 0); [lia |].
  destruct (Z.to_nat (Z.abs (limit_of q))) as [| k] eqn:Ek; [lia |].
  cbn [Z.to_nat skipn firstn].
  eexists _, _, _. split; [reflexivity |]. repeat split.
Qed.

Lemma created_is_listed_first_sample :
  exists t rest pg,
    list_transactions all_query
      (snd (post_transaction second_body 1730592000000 [0; 255]
              1730592000002 (run sample_success)))
    = Listed (t :: rest) pg /\
    transactionId t = second_id /\ status t = pending /\
    date t = 1730592000002.
Proof.
  apply (created_is_listed_first second_body 1730592000000 [0; 255]
           1730592000002 (run sample_success) second_id all_query).
  - vm_compute. reflexivity.
  - intros u Hu. vm_compute in Hu. destruct Hu as [<- | []]. reflexivity.
  - reflexivity.
  - reflexivity.
  - reflexivity.
  - reflexivity.
  - reflexivity.
Defined.

(** ** The daily series *)

Lemma insert_key_perm (k : string) (l : list string) :
  Permutation (insert_key k l) (k :: l).
Proof.
  induction l as [| h r IH]; simpl; [reflexivity |].
  destruct (String.leb k h); [reflexivity |].
  rewrite IH. apply perm_swap.
Qed.

Lemma sort_keys_perm (l : list string) : Permutation (sort_keys l) l.
Proof.
  induction l as [| k r IH]; simpl; [reflexivity |].
  rewrite insert_key_perm. now constructor.
Qed.

Lemma insert_key_sorted (k : string) (l : list string) :
  Sorted (fun a b => String.leb a b = true) l ->
  Sorted (fun a b => String.leb a b = true) (insert_key k l).
Proof.
  induction 1 as [| h r Hs IH Hhd]; simpl.
  - repeat constructor.
  - destruct (String.leb k h) eqn:E.
    + constructor; [now constructor | now constructor].
    + assert (Hhk : String.leb h k = true)
        by (destruct (String.leb_total h k); congruence).
      constructor; [assumption |].
      destruct r as [| h' r']; simpl.
      * now constructor.
      * destruct (String.leb k h'); constructor; [assumption |].
        now inversion Hhd.
Qed.

Lemma sort_keys_sorted (l : list string) :
  Sorted (fun a b => String.leb a b = true) (sort_keys l).
Proof.
  induction l as [| k r IH]; simpl; [constructor |].
  now apply insert_key_sorted.
Qed.

Lemma leb_neq_ltb (a b : string) :
  String.leb a b = true -> a <> b -> String.ltb a b = true.
Proof.
  unfold String.leb, String.ltb. intros H Hne.
  destruct (String.compare a b) eqn:E; try reflexivity; try discriminate.
  apply String.compare_eq_iff in E. contradiction.
Qed.

Lemma sorted_nodup_strict (l : list string) :
  Sorted (fun a b => String.leb a b = true) l -> NoDup l ->
  Sorted (fun a b => String.ltb a b = true) l.
Proof.
  induction 1 as [| h r Hs IH Hhd]; intros Hnd; [constructor |].
  apply NoDup_cons_iff in Hnd as [Hnin Hnd].
  constructor; [now apply IH |].
  destruct Hhd as [| h' r' Hle]; constructor.
  apply leb_neq_ltb; [assumption |].
  intros ->. apply Hnin. now left.
Qed.

Lemma sum_over_add (f g : string -> Z) (ks : list string) :
  sum_over (fun k => f k + g k) ks = sum_over f ks + sum_over g ks.
Proof. induction ks as [| k r IH]; simpl; lia. Qed.

Lemma sum_over_ext (f g : string -> Z) (ks : list string) :
  (forall k, f k = g k) -> sum_over f ks = sum_over g ks.
Proof. intros E. induction ks as [| k r IH]; simpl; [| rewrite E, IH]; lia. Qed.

Lemma sum_over_zero (ks : list string) : sum_over (fun _ => 0) ks = 0.
Proof. induction ks as [| k r IH]; simpl; lia. Qed.

Section DailySeriesFacts.

Variable dateToString : Z -> string.

Lemma sum_over_hit (t : Transaction) (ks : list string) :
  NoDup ks -> In (day_of dateToString t) ks ->
  sum_over (day_hit dateToString t) ks = 1.
Proof.
  assert (Z0 : forall l, ~ In (day_of dateToString t) l ->
                         sum_over (day_hit dateToString t) l = 0).
  { induction l as [| k r IH]; intros Hnin; [reflexivity |].
    simpl. unfold day_hit at 1.
    destruct (String.eqb_spec (day_of dateToString t) k) as [E | _].
    - exfalso. apply Hnin. now left.
    - rewrite IH; [lia |]. intros H. apply Hnin. now right. }
  induction 1 as [| k r Hnin Hnd IH]; intros Hin; [destruct Hin |].
  simpl. unfold day_hit at 1.
  destruct (String.eqb_spec (day_of dateToString t) k) as [E | Hne].
  - rewrite Z0; [lia |]. now rewrite E.
  - destruct Hin as [E | Hin]; [congruence |].
    rewrite IH; [lia | assumption].
Qed.

Lemma on_day_cons (k : string) (t : Transaction) (c : collection) :
  Z.of_nat (List.length (on_day dateToString k (t :: c)))
  = day_hit dateToString t k
    + Z.of_nat (List.length (on_day dateToString k c)).
Proof.
  unfold on_day, day_hit. cbn [List.filter].
  destruct (String.eqb (day_of dateToString t) k); cbn [List.length]; lia.
Qed.

Lemma sum_over_days (c : collection) (ks : list string) :
  NoDup ks -> (forall t, In t c -> In (day_of dateToString t) ks) ->
  sum_over (fun k => Z.of_nat (List.length (on_day dateToString k c))) ks
  = Z.of_nat (List.length c).
Proof.
  intros Hnd. induction c as [| t r IH]; intros Hin.
  - apply sum_over_zero.
  - rewrite (sum_over_ext _ _ ks (fun k => on_day_cons k t r)).
    rewrite sum_over_add, sum_over_hit, IH.
    + cbn [List.length]. lia.
    + intros u Hu. apply Hin. now right.
    + assumption.
    + apply Hin. now left.
Qed.

Lemma total_count_groups (c : collection) (ks : list string) :
  total_count (map (group_of dateToString c) ks)
  = sum_over (fun k => Z.of_nat (List.length (on_day dateToString k c))) ks.
Proof. induction ks as [| k r IH]; simpl; [reflexivity | now rewrite IH]. Qed.

Lemma day_keys (c : collection) :
  let ks := sort_keys (nodup string_dec (map (day_of dateToString) c)) in
  NoDup ks /\
  (forall k, In k ks <-> exists t, In t c /\ day_of dateToString t = k).
Proof.
  intros ks. pose proof (sort_keys_perm
    (nodup string_dec (map (day_of dateToString) c))) as P. fold ks in P.
  split.
  - apply (Permutation_NoDup (Permutation_sym P)), NoDup_nodup.
  - intros k. split.
    + intros H. apply (Permutation_in _ P), nodup_In, in_map_iff in H.
      destruct H as (t & E & Ht). exists t. tauto.
    + intros (t & Ht & E). apply (Permutation_in _ (Permutation_sym P)).
      apply nodup_In, in_map_iff. exists t. tauto.
Qed.

(** X16: the counts of the daily series add up to the number of
    documents created at or after the cutoff: each of them is counted
    on exactly one day. *)
Theorem daily_counts_add_up (lastWeek : Z) (c : collection) :
  total_count (dailyTransactions dateToString lastWeek c)
  = Z.of_nat (List.length (since lastWeek c)).
Proof.
  unfold dailyTransactions. rewrite total_count_groups.
  destruct (day_keys (since lastWeek c)) as [Hnd Hin].
  apply sum_over_days; [assumption |].
  intros t Ht. apply Hin. now exists t.
Qed.

Lemma sorted_groups (c : collection) (ks : list string) :
  Sorted (fun a b => String.ltb a b = true) ks ->
  Sorted day_before (map (group_of dateToString c) ks).
Proof.
  induction 1 as [| k r Hs IH Hhd]; simpl; [constructor |].
  constructor; [assumption |].
  destruct Hhd; simpl; constructor. assumption.
Qed.

(** X17: the daily series is in strictly ascending order of its day
    strings, so no day appears twice. *)
Theorem daily_days_ascend (lastWeek : Z) (c : collection) :
  Sorted day_before (dailyTransactions dateToString lastWeek c).
Proof.
  unfold dailyTransactions. apply sorted_groups.
  apply sorted_nodup_strict; [apply sort_keys_sorted |].
  apply (day_keys (since lastWeek c)).
Qed.

(** X18: the daily series has an entry for a day exactly when a document
    was created on that day at or after the cutoff; the entry counts the
    documents of that day, so no entry has a count of zero and days
    without transactions are not filled in. *)
Theorem daily_entries_are_days (lastWeek : Z) (c : collection)
    (e : Daily.entry) :
  In e (dailyTransactions dateToString lastWeek c) <->
  (exists t, In t c /\ lastWeek <= date t /\
             dateToString (date t) = Daily._id e) /\
  1 <= Daily.count e /\
  e = group_of dateToString (since lastWeek c) (Daily._id e).
Proof.
  unfold dailyTransactions.
  destruct (day_keys (since lastWeek c)) as [_ Hin].
  rewrite in_map_iff. split.
  - intros (k & <- & Hk). cbn [Daily._id group_of].
    apply Hin in Hk as (t & Ht & E).
    pose proof Ht as Ht'. apply filter_In in Ht' as [Hc Hd].
    split; [| split; [| reflexivity]].
    + exists t. apply Z.leb_le in Hd. tauto.
    + cbn [Daily.count group_of].
      assert (Hon : In t (on_day dateToString k (since lastWeek c))).
      { apply filter_In. split; [assumption |]. now apply String.eqb_eq. }
      destruct (on_day dateToString k (since lastWeek c));
        [destruct Hon | cbn [List.length]; lia].
  - intros ((t & Hc & Hd & E) & _ & He). exists (Daily._id e).
    split; [now symmetry |]. apply Hin. exists t. split; [| exact E].
    apply filter_In. split; [assumption | now apply Z.leb_le].
Qed.

End DailySeriesFacts.
